(** * Verification of [scripts/algolia.ts]

    The script indexes the static HTML files of the documentation site into a
    hosted Algolia index: it filters the page front matters, turns every
    remaining page into records, saves the records and deletes the records of
    the index that the save did not write.

    The script is embedded as a program in a small monad that threads the
    state of the remote index, may throw a JavaScript [Error], and emits the
    calls the script makes to its collaborators (console, file system, record
    generator, Algolia client) as a list of events.

    The script awaits its promises one at a time, except in
    [generateAlogliaRecords], where [getRecords] is mapped over the pages and
    the promises are joined by [Promise.all]. There the embedding runs the
    pages in their order, each to its end: every page is started whatever
    became of the earlier ones, as [Array.prototype.map] does with an async
    function, and the join rejects with the first rejection in the order of
    the pages. In Node the part of [getRecords] after its [await] may run
    later than the start of the next pages; no statement below depends on how
    the events of different pages are interleaved, nor on which of several
    rejections the join reports.

    The calls to the index client and the loading of the front matters
    resolve in the embedding. In Node they may reject, which ends the run;
    what is stated of a run that completes is stated of the runs in which
    they resolved. *)

From stdpp Require Import gmap strings list fin_maps.

Set Warnings "-clear-no-such-hyp".

Open Scope string_scope.
Open Scope nat_scope.
Open Scope list_scope.

(** ** JavaScript values *)

(** [new Error(message)] and [new Error(message, {cause})]. *)
Inductive Error : Type :=
| PlainError (message : string)
| CausedError (message : string) (cause : Error).

Definition message (e : Error) : string :=
  match e with
  | PlainError m => m
  | CausedError m _ => m
  end.

Definition cause (e : Error) : option Error :=
  match e with
  | PlainError _ => None
  | CausedError _ c => Some c
  end.

(** Truthiness of a possibly undefined string: [undefined] and the empty
    string are falsy. *)
Definition truthy_string (s : option string) : bool :=
  match s with
  | Some s => negb (String.eqb s "")
  | None => false
  end.

(** Truthiness of a possibly undefined boolean. *)
Definition truthy_flag (b : option bool) : bool :=
  match b with
  | Some b => b
  | None => false
  end.

(** A JavaScript [Set<string>]: its elements in insertion order, each once. *)
Module JSSet.
Definition t := list string.

Definition empty : t := [].

Definition has (s : t) (x : string) : bool := bool_decide (x ∈ s).

Definition add (s : t) (x : string) : t :=
  if has s x then s else s ++ [x].

(** [new Set(xs)] *)
Definition of_list (xs : list string) : t := foldl add empty xs.

(** [Array.from(s)] *)
Definition to_list (s : t) : list string := s.

Definition size (s : t) : nat := length s.
End JSSet.

(** ** Data of the script *)

(** Modelled from the spec: the [FrontMatter] type of [src/types], of which
    the script reads the slug, the title, the keyword list and the two flags
    [draft] and [noindex]; an absent field is [None]. *)
Record FrontMatter : Type := {
  title : option string;
  slug : string;
  draft : option bool;
  noindex : option bool;
  keywords : option (list string);
}.

(** The second argument of [htmlToAlgoliaRecord]. *)
Record Meta : Type := {
  meta_title : option string;
  meta_url : string;
  meta_pathSegments : list string;
  meta_keywords : option (list string);
}.

(** The hits of [browseObjects] with [attributesToRetrieve: ['objectID']]. *)
Record Hit : Type := { hit_objectID : string }.

(** Arguments of a [console.log] after its format string. *)
Inductive LogArg : Type :=
| ArgNum (n : nat)
| ArgStr (s : string)
| ArgUndefined.

Definition log_string (s : option string) : LogArg :=
  match s with
  | Some s => ArgStr s
  | None => ArgUndefined
  end.

(** ** The host of the script

    What the script takes from outside: the record type of
    [@sentry-internal/global-search], of which the script reads no field and
    the index client the [objectID]; the functions it imports from that
    package and from [path]; [process.cwd()] and [process.env]; the files on
    disk, by path; and the imports of [src/mdx] and of [isDeveloperDocs]. *)
Class Host : Type := {
  AlgoliaRecord : Type;
  objectID : AlgoliaRecord → option string;
  htmlToAlgoliaRecord : string → Meta → string → Error + list AlgoliaRecord;
  extrapolate : string → string → list string;
  join : list string → string;
  cwd : string;
  env : gmap string string;
  files : gmap string string;
  isDeveloperDocs : bool;
  getDevDocsFrontMatter : list FrontMatter;
  getDocsFrontMatter : list FrontMatter;
}.

(** The remote index: the records it holds, by identifier. *)
Abbreviation IndexState := (gmap string AlgoliaRecord).

(** ** A concrete site, to run the script on *)

Module Site.

(** Records with an optional identifier and a text. *)
Record record : Type := { rec_objectID : option string; rec_text : string }.

(** A generator that makes one record per page, with the identifier
    [<html>-1], and fails on an empty page. *)
Definition generator (html : string) (meta : Meta) (selector : string)
  : Error + list record :=
  if String.eqb html "" then inl (PlainError "nothing to index")
  else inr [{| rec_objectID := Some (html +:+ "-1"); rec_text := html |}].

Definition prefixes (s separator : string) : list string := [s].

Definition join_paths (parts : list string) : string := String.concat "/" parts.

Definition settings : gmap string string :=
  {[ "ALGOLIA_APP_ID" := "app"; "ALGOLIA_API_KEY" := "key";
     "DOCS_INDEX_NAME" := "docs" ]}.

Definition settings_skip : gmap string string :=
  <["ALOGOLIA_SKIP_ON_ERROR" := "true"]> settings.

(** Only page [a] has been rendered. *)
Definition disk : gmap string string :=
  {[ "/docs/.next/server/app/a.html" := "a" ]}.

Definition page (slug : string) : FrontMatter :=
  {| title := Some slug; slug := slug; draft := None; noindex := None;
     keywords := None |}.

Definition page_a : FrontMatter := page "a".

Definition draft_b : FrontMatter :=
  {| title := Some "B"; slug := "b"; draft := Some true; noindex := None;
     keywords := None |}.

Definition page_c : FrontMatter := page "c".

Definition stale (text : string) : record :=
  {| rec_objectID := None; rec_text := text |}.

(** An index that holds two records of earlier runs. *)
Definition old_index : gmap string record :=
  {[ "a-old" := stale "old a"; "c" := stale "old c" ]}.

Definition empty_index : gmap string record := ∅.

(** An index that holds an outdated record under the identifier of page [a]. *)
Definition outdated_index : gmap string record :=
  {[ "a-1" := stale "outdated a"; "c" := stale "old c" ]}.

(** The site with the given generator, settings and pages. *)
Definition host (generate : string → Meta → string → Error + list record)
    (settings : gmap string string) (pages : list FrontMatter) : Host :=
  {| AlgoliaRecord := record;
     objectID := rec_objectID;
     htmlToAlgoliaRecord := generate;
     extrapolate := prefixes;
     join := join_paths;
     cwd := "/docs";
     env := settings;
     files := disk;
     isDeveloperDocs := false;
     getDevDocsFrontMatter := [];
     getDocsFrontMatter := pages |}.

(** Page [a] and the draft [b]. *)
Definition docs : Host := host generator settings [page_a; draft_b].

(** The same with page [c], which has not been rendered, with and without
    the skip-on-error flag. *)
Definition docs_broken : Host := host generator settings [page_a; draft_b; page_c].

Definition docs_skip : Host := host generator settings_skip [page_a; draft_b; page_c].

(** No setting at all. *)
Definition docs_unset : Host := host generator ∅ [page_a; draft_b].

(** A site none of whose pages gives a record: a draft and a page that has
    not been rendered, with the skip-on-error flag. *)
Definition docs_unbuilt : Host := host generator settings_skip [draft_b; page_c].

Definition record_a : record := {| rec_objectID := Some "a-1"; rec_text := "a" |}.

Definition meta_a : Meta :=
  {| meta_title := Some "a"; meta_url := "/a/"; meta_pathSegments := ["/a/"];
     meta_keywords := None |}.

Definition no_file_c : Error :=
  PlainError "ENOENT: no such file or directory, open '/docs/.next/server/app/c.html'".

End Site.

Section Script.

Context `{Host}.

(** ** Events: the calls the script makes to its collaborators *)

Inductive Event : Type :=
| ConsoleLog (format : string) (args : list LogArg)
| ConsoleError (e : Error)
| GetDevDocsFrontMatter
| GetDocsFrontMatter
| ReadFileSync (path : string)
| HtmlToAlgoliaRecord (html : string) (meta : Meta) (selector : string)
| Algoliasearch (appId apiKey : string)
| InitIndex (indexName : string)
| BrowseObjects
| SaveObjects (records : list AlgoliaRecord) (objectIDs : list string)
| DeleteObjects (objectIDs : list string).

(** ** The monad of the script *)

Record Outcome (A : Type) : Type := {
  result : Error + A;
  remote : IndexState;
  emitted : list Event;
}.
Arguments result {A} _.
Arguments remote {A} _.
Arguments emitted {A} _.

Definition M (A : Type) : Type := IndexState → Outcome A.

Definition ret {A} (x : A) : M A :=
  λ st, {| result := inr x; remote := st; emitted := [] |}.

Definition bind {A B} (m : M A) (k : A → M B) : M B :=
  λ st,
    let o := m st in
    match result o with
    | inl e => {| result := inl e; remote := remote o; emitted := emitted o |}
    | inr x =>
        let o' := k x (remote o) in
        {| result := result o'; remote := remote o';
           emitted := emitted o ++ emitted o' |}
    end.

#[global] Instance M_ret : MRet M := @ret.
#[global] Instance M_bind : MBind M := λ A B k m, bind m k.

(** [throw e] *)
Definition throw {A} (e : Error) : M A :=
  λ st, {| result := inl e; remote := st; emitted := [] |}.

(** The settled state of the promise of [m]: what [try] observes. *)
Definition settle {A} (m : M A) : M (Error + A) :=
  λ st,
    let o := m st in
    {| result := inr (result o); remote := remote o; emitted := emitted o |}.

Definition emit (e : Event) : M unit :=
  λ st, {| result := inr tt; remote := st; emitted := [e] |}.

Definition get_remote : M IndexState :=
  λ st, {| result := inr st; remote := st; emitted := [] |}.

Definition put_remote (st' : IndexState) : M unit :=
  λ _, {| result := inr tt; remote := st'; emitted := [] |}.

(** ** The collaborators *)

Definition console_log (format : string) (args : list LogArg) : M unit :=
  emit (ConsoleLog format args).

Definition console_error (e : Error) : M unit :=
  emit (ConsoleError e).

(** [fs.readFileSync(path).toString()]: throws when there is no file. *)
Definition readFileSync (path : string) : M string :=
  emit (ReadFileSync path);;
  match files !! path with
  | Some content => mret content
  | None =>
      throw (PlainError ("ENOENT: no such file or directory, open '" +:+ path +:+ "'"))
  end.

(** The call of the record generator: rejects when the generator fails. *)
Definition call_htmlToAlgoliaRecord (html : string) (meta : Meta) (selector : string)
  : M (list AlgoliaRecord) :=
  emit (HtmlToAlgoliaRecord html meta selector);;
  match htmlToAlgoliaRecord html meta selector with
  | inr records => mret records
  | inl e => throw e
  end.

(** *** The index client

    Modelled from the spec: the client of the hosted index is an external
    collaborator with a bulk upsert of records that auto-assigns the
    identifiers the records lack, a paginated enumeration of the existing
    identifiers and a bulk delete by identifier. *)

Definition hitsPerPage : nat := 1000.

(** Pages of at most [n] elements each. *)
Fixpoint paginate {A} (fuel n : nat) (l : list A) : list (list A) :=
  match fuel with
  | 0 => []
  | S fuel =>
      match l with
      | [] => []
      | _ => take n l :: paginate fuel n (drop n l)
      end
  end.

Definition index_browse (st : IndexState) : list (list Hit) :=
  let hits := (λ kv : string * AlgoliaRecord, {| hit_objectID := kv.1 |})
                <$> map_to_list st in
  paginate (length hits) hitsPerPage hits.

(** One record of a save: it is stored under its own identifier, or under
    one that no record of the index has when it brings none. *)
Definition index_add (acc : IndexState * list string) (r : AlgoliaRecord)
  : IndexState * list string :=
  let id := match objectID r with
            | Some id => id
            | None => fresh (dom acc.1)
            end in
  (<[id := r]> acc.1, acc.2 ++ [id]).

Definition index_save (st : IndexState) (records : list AlgoliaRecord)
  : IndexState * list string :=
  foldl index_add (st, []) records.

Definition index_delete (st : IndexState) (ids : list string) : IndexState :=
  foldl (λ st id, delete id st) st ids.

Definition algoliasearch (appId apiKey : string) : M unit :=
  emit (Algoliasearch appId apiKey).

Definition initIndex (indexName : string) : M unit :=
  emit (InitIndex indexName).

(** [index.browseObjects({attributesToRetrieve: ['objectID'], batch})]: the
    pages handed to [batch], in order. *)
Definition browseObjects : M (list (list Hit)) :=
  emit BrowseObjects;;
  st ← get_remote;
  mret (index_browse st).

(** [index.saveObjects(records, {batchSize: 10000,
    autoGenerateObjectIDIfNotExist: true})]: resolves to the identifiers of
    the saved records. *)
Definition saveObjects (records : list AlgoliaRecord) : M (list string) :=
  st ← get_remote;
  let '(st', ids) := index_save st records in
  emit (SaveObjects records ids);;
  put_remote st';;
  mret ids.

(** [index.deleteObjects(ids)]: resolves to the identifiers deleted. *)
Definition deleteObjects (ids : list string) : M (list string) :=
  emit (DeleteObjects ids);;
  st ← get_remote;
  put_remote (index_delete st ids);;
  mret ids.

(** ** The script *)

Definition staticHtmlFilesPath : string := join [cwd; ".next"; "server"; "app"].

Definition ALGOLIA_APP_ID : option string := env !! "ALGOLIA_APP_ID".
Definition ALGOLIA_API_KEY : option string := env !! "ALGOLIA_API_KEY".
Definition DOCS_INDEX_NAME : option string := env !! "DOCS_INDEX_NAME".
Definition ALOGOLIA_SKIP_ON_ERROR : bool :=
  bool_decide (env !! "ALOGOLIA_SKIP_ON_ERROR" = Some "true").

(** The path and the metadata that [getRecords] computes for a page. *)
Definition page_htmlFile (pageFm : FrontMatter) : string :=
  join [staticHtmlFilesPath; slug pageFm +:+ ".html"].

Definition page_meta (pageFm : FrontMatter) : Meta :=
  {| meta_title := title pageFm;
     meta_url := "/" +:+ slug pageFm +:+ "/";
     meta_pathSegments := (λ x, "/" +:+ x +:+ "/") <$> extrapolate (slug pageFm) "/";
     meta_keywords := keywords pageFm |}.

(** The [try] block of [getRecords]. *)
Definition getRecords_try (pageFm : FrontMatter) : M (list AlgoliaRecord) :=
  let htmlFile := page_htmlFile pageFm in
  html ← readFileSync htmlFile;
  pageRecords ← call_htmlToAlgoliaRecord html (page_meta pageFm) "#main";
  mret pageRecords.

(** The error that the [catch] block of [getRecords] makes of [e]. *)
Definition page_error (pageFm : FrontMatter) (e : Error) : Error :=
  CausedError ("🔴 Error processing " +:+ slug pageFm +:+ ": " +:+ message e) e.

Definition getRecords (pageFm : FrontMatter) : M (list AlgoliaRecord) :=
  console_log "processing:" [ArgStr (slug pageFm)];;
  attempt ← settle (getRecords_try pageFm);
  match attempt with
  | inr pageRecords => mret pageRecords
  | inl e =>
      let error := page_error pageFm e in
      if ALOGOLIA_SKIP_ON_ERROR then
        console_error error;;
        mret []
      else throw error
  end.

(** [l.map(f)] for an async [f]: every call is made, in order, whatever
    the earlier ones did; the promises are kept in their settled state. *)
Fixpoint map_async {A B} (f : A → M B) (l : list A) : M (list (Error + B)) :=
  match l with
  | [] => mret []
  | x :: l =>
      p ← settle (f x);
      ps ← map_async f l;
      mret (p :: ps)
  end.

(** The settled state of [Promise.all(ps)]: the values when all are
    fulfilled, the first rejection otherwise. *)
Fixpoint promise_all {A} (ps : list (Error + A)) : Error + list A :=
  match ps with
  | [] => inr []
  | inl e :: _ => inl e
  | inr x :: ps =>
      match promise_all ps with
      | inl e => inl e
      | inr xs => inr (x :: xs)
      end
  end.

(** [await p] of a settled promise. *)
Definition await {A} (p : Error + A) : M A :=
  match p with
  | inr x => mret x
  | inl e => throw e
  end.

Definition indexable (frontMatter : FrontMatter) : bool :=
  negb (truthy_flag (draft frontMatter))
  && negb (truthy_flag (noindex frontMatter))
  && truthy_string (title frontMatter).

Definition generateAlogliaRecords (pageFrontMatters : list FrontMatter)
  : M (list AlgoliaRecord) :=
  promises ← map_async getRecords (List.filter indexable pageFrontMatters);
  records ← await (promise_all promises);
  mret (concat records).

Definition fetchExistingRecordIds : M (list string) :=
  console_log "🔥 fetching existing records ids ..." [];;
  chunks ← browseObjects;
  let existingRecordIds :=
    foldl (λ ids chunk, foldl (λ ids record, JSSet.add ids (hit_objectID record)) ids chunk)
      JSSet.empty chunks in
  mret (JSSet.to_list existingRecordIds).

Definition indexAndUpload : M unit :=
  pageFrontMatters ←
    (if isDeveloperDocs
     then emit GetDevDocsFrontMatter;; mret getDevDocsFrontMatter
     else emit GetDocsFrontMatter;; mret getDocsFrontMatter);
  records ← generateAlogliaRecords pageFrontMatters;
  console_log "🔥 Generated %d new Algolia records." [ArgNum (length records)];;
  existingRecordIds ← fetchExistingRecordIds;
  console_log "🔥 Found %d existing Algolia records in `%s`"
    [ArgNum (length existingRecordIds); log_string DOCS_INDEX_NAME];;
  console_log "🔥 Saving new records to `%s`..." [log_string DOCS_INDEX_NAME];;
  saveResult ← saveObjects records;
  let newRecordIDs := JSSet.of_list saveResult in
  console_log "🔥 Saved %d records" [ArgNum (JSSet.size newRecordIDs)];;
  let recordsToDelete :=
    List.filter (λ id, negb (JSSet.has newRecordIDs id)) existingRecordIds in
  if (length recordsToDelete =? 0)%nat then
    console_log "🔥 No stale records to delete" []
  else
    console_log "🔥 Deleting old (stale) records ..." [];;
    deleteResult ← deleteObjects recordsToDelete;
    console_log "🔥 Deleted %d stale records from `%s`"
      [ArgNum (length deleteResult); log_string DOCS_INDEX_NAME].

(** A required setting: the script throws when it is falsy. *)
Definition required (setting : option string) (name : string) : M string :=
  let missing :=
    PlainError ("`" +:+ name +:+ "` env var must be configured in repo secrets") in
  if negb (truthy_string setting) then throw missing
  else match setting with
       | Some value => mret value
       | None => throw missing
       end.

(** The module body, from its first statement to the call of
    [indexAndUpload]. *)
Definition script : M unit :=
  appId ← required ALGOLIA_APP_ID "ALGOLIA_APP_ID";
  apiKey ← required ALGOLIA_API_KEY "ALGOLIA_API_KEY";
  indexName ← required DOCS_INDEX_NAME "DOCS_INDEX_NAME";
  algoliasearch appId apiKey;;
  initIndex indexName;;
  indexAndUpload.

(** ** Observations on a run *)

(** The pages that [indexAndUpload] loads. *)
Definition site_pages : list FrontMatter :=
  if isDeveloperDocs then getDevDocsFrontMatter else getDocsFrontMatter.

(** The event of loading them. *)
Definition load_event : Event :=
  if isDeveloperDocs then GetDevDocsFrontMatter else GetDocsFrontMatter.

(** The three required settings are there. *)
Definition configured : Prop :=
  truthy_string ALGOLIA_APP_ID = true
  ∧ truthy_string ALGOLIA_API_KEY = true
  ∧ truthy_string DOCS_INDEX_NAME = true.

(** The calls that reach the remote index. *)
Definition is_remote_call (e : Event) : bool :=
  match e with
  | BrowseObjects | SaveObjects _ _ | DeleteObjects _ => true
  | _ => false
  end.

Definition remote_calls (events : list Event) : list Event :=
  List.filter is_remote_call events.

(** The calls of the record generator, with their arguments. *)
Definition generator_call (e : Event) : option (string * Meta * string) :=
  match e with
  | HtmlToAlgoliaRecord html meta selector => Some (html, meta, selector)
  | _ => None
  end.

Definition generator_calls (events : list Event) : list (string * Meta * string) :=
  omap generator_call events.

(** What the [try] block of [getRecords] comes to on a page. *)
Definition page_attempt (pageFm : FrontMatter) : Error + list AlgoliaRecord :=
  match files !! page_htmlFile pageFm with
  | Some html => htmlToAlgoliaRecord html (page_meta pageFm) "#main"
  | None =>
      inl (PlainError ("ENOENT: no such file or directory, open '"
                         +:+ page_htmlFile pageFm +:+ "'"))
  end.

Definition page_attempt_events (pageFm : FrontMatter) : list Event :=
  ReadFileSync (page_htmlFile pageFm)
  :: match files !! page_htmlFile pageFm with
     | Some html => [HtmlToAlgoliaRecord html (page_meta pageFm) "#main"]
     | None => []
     end.

(** What [getRecords] comes to on a page. *)
Definition page_result (pageFm : FrontMatter) : Error + list AlgoliaRecord :=
  match page_attempt pageFm with
  | inr pageRecords => inr pageRecords
  | inl e => if ALOGOLIA_SKIP_ON_ERROR then inr [] else inl (page_error pageFm e)
  end.

Definition page_events (pageFm : FrontMatter) : list Event :=
  ConsoleLog "processing:" [ArgStr (slug pageFm)]
  :: page_attempt_events pageFm
  ++ match page_attempt pageFm with
     | inr _ => []
     | inl e =>
         if ALOGOLIA_SKIP_ON_ERROR then [ConsoleError (page_error pageFm e)] else []
     end.

(** The calls of the generator that [getRecords] makes on a page. *)
Definition page_generator_calls (pageFm : FrontMatter) : list (string * Meta * string) :=
  match files !! page_htmlFile pageFm with
  | Some html => [(html, page_meta pageFm, "#main")]
  | None => []
  end.

(** The records that a page gives to the upload. *)
Definition page_records (pageFm : FrontMatter) : list AlgoliaRecord :=
  match page_attempt pageFm with
  | inr pageRecords => pageRecords
  | inl _ => []
  end.

(** The pages that pass the filter, and the records they give. *)
Definition indexable_pages : list FrontMatter := List.filter indexable site_pages.

Definition uploaded_records : list AlgoliaRecord :=
  concat (page_records <$> indexable_pages).

(** The pages of a list that pass the filter and whose HTML file is on disk,
    the arguments of the call of the generator on such a page, and the
    records that the generator makes of it. *)
Definition is_rendered (pageFm : FrontMatter) : bool :=
  bool_decide (is_Some (files !! page_htmlFile pageFm)).

Definition rendered (pageFrontMatters : list FrontMatter) : list FrontMatter :=
  List.filter is_rendered (List.filter indexable pageFrontMatters).

Definition page_html (pageFm : FrontMatter) : string :=
  default "" (files !! page_htmlFile pageFm).

Definition page_call (pageFm : FrontMatter) : string * Meta * string :=
  (page_html pageFm, page_meta pageFm, "#main").

Definition generator_result (pageFm : FrontMatter) : list AlgoliaRecord :=
  match htmlToAlgoliaRecord (page_html pageFm) (page_meta pageFm) "#main" with
  | inr pageRecords => pageRecords
  | inl _ => []
  end.

(** The identifiers that the index holds. *)
Definition index_ids (st : IndexState) : list string := (map_to_list st).*1.

(** The identifiers that [indexAndUpload] deletes when the index held [st]
    and the save gave [saved]. *)
Definition stale_ids (st : IndexState) (saved : list string) : list string :=
  List.filter (λ id, negb (JSSet.has (JSSet.of_list saved) id)) (index_ids st).

(** The events of [indexAndUpload] from the end of the generation on. *)
Definition upload_events (st : IndexState) (records : list AlgoliaRecord)
  : list Event :=
  let saved := (index_save st records).2 in
  let stale := stale_ids st saved in
  [ConsoleLog "🔥 Generated %d new Algolia records." [ArgNum (length records)];
   ConsoleLog "🔥 fetching existing records ids ..." [];
   BrowseObjects;
   ConsoleLog "🔥 Found %d existing Algolia records in `%s`"
     [ArgNum (length (index_ids st)); log_string DOCS_INDEX_NAME];
   ConsoleLog "🔥 Saving new records to `%s`..." [log_string DOCS_INDEX_NAME];
   SaveObjects records saved;
   ConsoleLog "🔥 Saved %d records" [ArgNum (JSSet.size (JSSet.of_list saved))]]
  ++ match stale with
     | [] => [ConsoleLog "🔥 No stale records to delete" []]
     | _ :: _ =>
         [ConsoleLog "🔥 Deleting old (stale) records ..." [];
          DeleteObjects stale;
          ConsoleLog "🔥 Deleted %d stale records from `%s`"
            [ArgNum (length stale); log_string DOCS_INDEX_NAME]]
     end.

(** The index after the save and the deletion. *)
Definition upload_remote (st : IndexState) (records : list AlgoliaRecord)
  : IndexState :=
  let '(st', saved) := index_save st records in
  match stale_ids st saved with
  | [] => st'
  | stale => index_delete st' stale
  end.

(** The identifiers that the [batch] callback of [fetchExistingRecordIds]
    has collected when [browseObjects] has handed it the pages [chunks]. *)
Definition collect_ids (chunks : list (list Hit)) : list string :=
  JSSet.to_list
    (foldl (λ ids chunk, foldl (λ ids record, JSSet.add ids (hit_objectID record)) ids chunk)
       JSSet.empty chunks).

(** The work on the pages: reading an HTML file and calling the generator. *)
Definition is_page_work (e : Event) : bool :=
  match e with
  | ReadFileSync _ | HtmlToAlgoliaRecord _ _ _ => true
  | _ => false
  end.

Definition page_work (events : list Event) : list Event :=
  List.filter is_page_work events.

(** The error of [fs.readFileSync] on a path without file. *)
Definition ENOENT (path : string) : Error :=
  PlainError ("ENOENT: no such file or directory, open '" +:+ path +:+ "'").

End Script.

Arguments result {_ A} _.
Arguments remote {_ A} _.
Arguments emitted {_ A} _.

Section Properties.

Context `{Host}.

(** ** Running the monad *)

Ltac run_M :=
  cbv beta iota zeta delta
    [mbind mret M_bind M_ret bind ret throw settle emit get_remote put_remote
     console_log console_error await algoliasearch initIndex
     result remote emitted].

Lemma getRecords_try_run pageFm st :
  getRecords_try pageFm st =
    {| result := page_attempt pageFm; remote := st;
       emitted := page_attempt_events pageFm |}.
Proof.
  unfold getRecords_try, page_attempt, page_attempt_events, readFileSync,
    call_htmlToAlgoliaRecord.
  run_M.
  destruct (files !! page_htmlFile pageFm) as [html|]; [|reflexivity].
  by destruct (htmlToAlgoliaRecord html (page_meta pageFm) "#main").
Qed.

Lemma getRecords_run pageFm st :
  getRecords pageFm st =
    {| result := page_result pageFm; remote := st; emitted := page_events pageFm |}.
Proof.
  unfold getRecords, page_result, page_events.
  run_M. rewrite getRecords_try_run.
  destruct (page_attempt pageFm) as [e|pageRecords];
    [destruct ALOGOLIA_SKIP_ON_ERROR|]; by rewrite ?app_nil_r.
Qed.

Lemma map_async_run {A B} (f : A → M B) (r : A → Error + B) (ev : A → list Event) l st :
  (∀ x st, f x st = {| result := r x; remote := st; emitted := ev x |}) →
  map_async f l st =
    {| result := inr (r <$> l); remote := st; emitted := concat (ev <$> l) |}.
Proof.
  intros Hf. induction l as [|x l IH]; [reflexivity|].
  cbn [map_async]. run_M. rewrite Hf. fold (map_async f l). rewrite IH.
  by rewrite app_nil_r.
Qed.

Lemma generateAlogliaRecords_run pageFrontMatters st :
  generateAlogliaRecords pageFrontMatters st =
    let pages := List.filter indexable pageFrontMatters in
    {| result := match promise_all (page_result <$> pages) with
                 | inr records => inr (concat records)
                 | inl e => inl e
                 end;
       remote := st;
       emitted := concat (page_events <$> pages) |}.
Proof.
  unfold generateAlogliaRecords. run_M.
  rewrite (map_async_run getRecords page_result page_events) by apply getRecords_run.
  destruct (promise_all _); by rewrite ?app_nil_r.
Qed.

(** ** The index client *)

Lemma paginate_concat {A} (n fuel : nat) (l : list A) :
  0 < n → length l ≤ fuel → concat (paginate fuel n l) = l.
Proof.
  intros Hn. revert l. induction fuel as [|fuel IH]; intros l Hl.
  - destruct l; [reflexivity | cbn in Hl; lia].
  - destruct l as [|x l]; [reflexivity|].
    cbn [paginate concat]. rewrite IH, take_drop; [done|].
    rewrite length_drop. cbn [length] in Hl. destruct n; [lia|]. cbn. lia.
Qed.

Lemma JSSet_add_fresh (s : JSSet.t) x : x ∉ s → JSSet.add s x = s ++ [x].
Proof. intros Hx. unfold JSSet.add, JSSet.has. by rewrite bool_decide_eq_false_2. Qed.

Lemma JSSet_add_NoDup (l : list string) (s : JSSet.t) :
  NoDup (s ++ l) → foldl JSSet.add s l = s ++ l.
Proof.
  revert s. induction l as [|x l IH]; intros s Hnd; cbn [foldl].
  - by rewrite app_nil_r.
  - assert (x ∉ s) by (apply NoDup_app in Hnd as (_ & Hd & _); set_solver).
    rewrite JSSet_add_fresh by done.
    rewrite IH; rewrite <- app_assoc; done.
Qed.

Lemma JSSet_of_list_elem (l : list string) x : x ∈ JSSet.of_list l ↔ x ∈ l.
Proof.
  unfold JSSet.of_list.
  enough (∀ s, x ∈ foldl JSSet.add s l ↔ x ∈ s ∨ x ∈ l) as ->
    by (unfold JSSet.empty; set_solver).
  induction l as [|y l IH]; intros s; cbn [foldl]; [set_solver|].
  rewrite IH. unfold JSSet.add, JSSet.has. case_bool_decide; set_solver.
Qed.

Lemma JSSet_has_of_list (l : list string) x :
  JSSet.has (JSSet.of_list l) x = bool_decide (x ∈ l).
Proof. unfold JSSet.has. apply bool_decide_ext, JSSet_of_list_elem. Qed.

Lemma foldl_chunks {A S} (f : S → A → S) (chunks : list (list A)) (s : S) :
  foldl (λ s chunk, foldl f s chunk) s chunks = foldl f s (concat chunks).
Proof.
  revert s. induction chunks as [|c chunks IH]; intros s; [reflexivity|].
  cbn [foldl concat]. by rewrite IH, foldl_app.
Qed.

Lemma NoDup_index_ids (st : IndexState) : NoDup (index_ids st).
Proof. apply NoDup_fst_map_to_list. Qed.

Lemma elem_of_index_ids (st : IndexState) id : id ∈ index_ids st ↔ id ∈ dom st.
Proof.
  unfold index_ids. rewrite elem_of_dom, list_elem_of_fmap. split.
  - intros [[k v] [-> Hkv%elem_of_map_to_list]]. by exists v.
  - intros [v Hv]. exists (id, v). by rewrite elem_of_map_to_list.
Qed.

Lemma fetchExistingRecordIds_run st :
  fetchExistingRecordIds st =
    {| result := inr (index_ids st); remote := st;
       emitted := [ConsoleLog "🔥 fetching existing records ids ..." []; BrowseObjects] |}.
Proof.
  unfold fetchExistingRecordIds, browseObjects. run_M. do 2 f_equal.
  unfold JSSet.to_list, index_browse.
  rewrite (foldl_chunks (λ ids record, JSSet.add ids (hit_objectID record))).
  rewrite paginate_concat by (unfold hitsPerPage; lia).
  rewrite foldl_fmap. cbn [hit_objectID].
  rewrite <- (foldl_fmap JSSet.add JSSet.empty (map_to_list st) fst).
  apply (JSSet_add_NoDup _ []), NoDup_index_ids.
Qed.

Lemma index_save_acc (records : list AlgoliaRecord) st acc :
  ∃ st' ids,
    foldl index_add (st, acc) records = (st', acc ++ ids)
    ∧ dom st' = dom st ∪ list_to_set ids
    ∧ length ids = length records.
Proof.
  revert st acc. induction records as [|r records IH]; intros st acc; cbn [foldl].
  - exists st, []. rewrite app_nil_r. set_solver.
  - unfold index_add at 2. cbn [fst snd].
    set (id := match objectID r with Some id => id | None => fresh (dom st) end).
    destruct (IH (<[id:=r]> st) (acc ++ [id])) as (st' & ids & -> & Hdom & Hlen).
    exists st', (id :: ids). rewrite <- app_assoc. split; [done|].
    rewrite Hdom, dom_insert_L. cbn [length]. split; [set_solver|lia].
Qed.

Lemma index_save_dom st records :
  dom (index_save st records).1 = dom st ∪ list_to_set (index_save st records).2.
Proof.
  unfold index_save.
  by destruct (index_save_acc records st []) as (st' & ids & -> & Hdom & _).
Qed.

Lemma index_save_length st records :
  length (index_save st records).2 = length records.
Proof.
  unfold index_save.
  by destruct (index_save_acc records st []) as (st' & ids & -> & _ & Hlen).
Qed.

Lemma index_delete_dom (ids : list string) (st : IndexState) :
  dom (index_delete st ids) = dom st ∖ list_to_set ids.
Proof.
  unfold index_delete. revert st.
  induction ids as [|id ids IH]; intros st; cbn [foldl].
  - set_solver.
  - rewrite IH, dom_delete_L. set_solver.
Qed.

Lemma elem_of_stale_ids st saved id :
  id ∈ stale_ids st saved ↔ id ∈ dom st ∧ id ∉ saved.
Proof.
  unfold stale_ids. rewrite list_elem_of_In, filter_In, <- list_elem_of_In.
  rewrite elem_of_index_ids, JSSet_has_of_list, negb_true_iff.
  by rewrite bool_decide_eq_false.
Qed.

(** ** The driver *)

Lemma indexAndUpload_run st :
  indexAndUpload st =
    let generation := generateAlogliaRecords site_pages st in
    match result generation with
    | inl e =>
        {| result := inl e; remote := st;
           emitted := load_event :: emitted generation |}
    | inr records =>
        {| result := inr (); remote := upload_remote st records;
           emitted := load_event :: emitted generation ++ upload_events st records |}
    end.
Proof.
  unfold indexAndUpload, site_pages, load_event.
  run_M.
  assert (∀ b : bool,
    (if b then
       λ st, {| result := inr getDevDocsFrontMatter; remote := st;
                emitted := [GetDevDocsFrontMatter] ++ [] |}
     else
       λ st, {| result := inr getDocsFrontMatter; remote := st;
                emitted := [GetDocsFrontMatter] ++ [] |}) st
    = {| result := inr (if b then getDevDocsFrontMatter else getDocsFrontMatter);
         remote := st;
         emitted := [if b then GetDevDocsFrontMatter else GetDocsFrontMatter] |})
    as -> by (by intros []).
  rewrite !generateAlogliaRecords_run. cbv zeta.
  destruct (promise_all _) as [e|records]; [reflexivity|].
  rewrite fetchExistingRecordIds_run.
  unfold saveObjects, deleteObjects, upload_remote, upload_events. run_M.
  destruct (index_save st (concat records)) as [st' saved].
  run_M. cbn [snd]. fold (stale_ids st saved).
  destruct (stale_ids st saved) as [|id stale]; cbn [length Nat.eqb]; run_M;
    f_equal; by rewrite ?app_nil_r, <- ?app_assoc.
Qed.

Lemma required_falsy setting name st :
  truthy_string setting = false →
  required setting name st =
    {| result :=
         inl (PlainError ("`" +:+ name +:+ "` env var must be configured in repo secrets"));
       remote := st; emitted := [] |}.
Proof. intros Hs. unfold required. by rewrite Hs. Qed.

Lemma required_truthy setting name :
  truthy_string setting = true →
  ∃ value, setting = Some value
    ∧ ∀ st, required setting name st =
              {| result := inr value; remote := st; emitted := [] |}.
Proof.
  intros Hs. unfold required. rewrite Hs.
  destruct setting as [value|]; [|discriminate]. by exists value.
Qed.

Lemma script_configured :
  configured →
  ∃ appId apiKey indexName,
    ALGOLIA_APP_ID = Some appId ∧ ALGOLIA_API_KEY = Some apiKey
    ∧ DOCS_INDEX_NAME = Some indexName
    ∧ ∀ st, script st =
        {| result := result (indexAndUpload st);
           remote := remote (indexAndUpload st);
           emitted := Algoliasearch appId apiKey :: InitIndex indexName
                        :: emitted (indexAndUpload st) |}.
Proof.
  intros (Hid & Hkey & Hname).
  destruct (required_truthy _ "ALGOLIA_APP_ID" Hid) as (appId & HappId & Hr1).
  destruct (required_truthy _ "ALGOLIA_API_KEY" Hkey) as (apiKey & HapiKey & Hr2).
  destruct (required_truthy _ "DOCS_INDEX_NAME" Hname) as (indexName & HindexName & Hr3).
  exists appId, apiKey, indexName. do 3 (split; [done|]).
  intros st. unfold script. run_M. rewrite Hr1. run_M. rewrite Hr2. run_M.
  rewrite Hr3. run_M. by destruct (indexAndUpload st) as [[e|[]] st' events].
Qed.

Lemma script_not_configured :
  ¬ configured →
  ∃ e, ∀ st, script st = {| result := inl e; remote := st; emitted := [] |}.
Proof.
  intros Hnot. unfold script.
  destruct (truthy_string ALGOLIA_APP_ID) eqn:Hid;
    [|eexists; intros st; run_M; by rewrite required_falsy].
  destruct (required_truthy _ "ALGOLIA_APP_ID" Hid) as (appId & _ & Hr1).
  destruct (truthy_string ALGOLIA_API_KEY) eqn:Hkey;
    [|eexists; intros st; run_M; rewrite Hr1; run_M; by rewrite required_falsy].
  destruct (required_truthy _ "ALGOLIA_API_KEY" Hkey) as (apiKey & _ & Hr2).
  destruct (truthy_string DOCS_INDEX_NAME) eqn:Hname;
    [|eexists; intros st; run_M; rewrite Hr1; run_M; rewrite Hr2; run_M;
      by rewrite required_falsy].
  by destruct Hnot.
Qed.

(** ** The events of a run *)

Lemma remote_calls_app events1 events2 :
  remote_calls (events1 ++ events2) = remote_calls events1 ++ remote_calls events2.
Proof. apply List.filter_app. Qed.

Lemma remote_call_emitted e events : e ∈ remote_calls events → e ∈ events.
Proof.
  unfold remote_calls. rewrite !list_elem_of_In, filter_In. by intros [? _].
Qed.

Lemma remote_calls_page pageFm : remote_calls (page_events pageFm) = [].
Proof.
  unfold page_events, page_attempt_events, remote_calls. cbn [List.filter is_remote_call].
  rewrite List.filter_app.
  destruct (files !! page_htmlFile pageFm), (page_attempt pageFm),
    ALOGOLIA_SKIP_ON_ERROR; reflexivity.
Qed.

Lemma remote_calls_pages pages : remote_calls (concat (page_events <$> pages)) = [].
Proof.
  induction pages as [|pageFm pages IH]; [reflexivity|].
  cbn [fmap list_fmap concat]. fold (page_events <$> pages).
  by rewrite remote_calls_app, remote_calls_page, IH.
Qed.

Lemma remote_calls_upload st records :
  remote_calls (upload_events st records) =
    let saved := (index_save st records).2 in
    BrowseObjects :: SaveObjects records saved
      :: match stale_ids st saved with
         | [] => []
         | stale => [DeleteObjects stale]
         end.
Proof.
  unfold upload_events. cbv zeta. rewrite remote_calls_app.
  by destruct (stale_ids st _).
Qed.

Lemma generator_calls_app events1 events2 :
  generator_calls (events1 ++ events2)
  = generator_calls events1 ++ generator_calls events2.
Proof. apply omap_app. Qed.

Lemma generator_calls_page pageFm :
  generator_calls (page_events pageFm) = page_generator_calls pageFm.
Proof.
  unfold page_events, page_attempt_events, page_generator_calls, generator_calls.
  cbn [omap list_omap generator_call]. rewrite omap_app.
  destruct (files !! page_htmlFile pageFm), (page_attempt pageFm),
    ALOGOLIA_SKIP_ON_ERROR; reflexivity.
Qed.

Lemma generator_calls_pages pages :
  generator_calls (concat (page_events <$> pages))
  = concat (page_generator_calls <$> pages).
Proof.
  induction pages as [|pageFm pages IH]; [reflexivity|].
  cbn [fmap list_fmap concat]. fold (page_events <$> pages).
  fold (page_generator_calls <$> pages).
  by rewrite generator_calls_app, generator_calls_page, IH.
Qed.

(** ** [Promise.all] over the pages *)

Lemma promise_all_records pages records :
  promise_all (page_result <$> pages) = inr records →
  records = page_records <$> pages.
Proof.
  revert records. induction pages as [|pageFm pages IH]; intros records; cbn.
  - by intros [= <-].
  - unfold page_result at 1, page_records at 1.
    destruct (page_attempt pageFm) as [e|pageRecords];
      [destruct ALOGOLIA_SKIP_ON_ERROR; [|discriminate]|];
      (destruct (promise_all (page_result <$> pages)) as [e'|records'];
       [discriminate|]);
      intros [= <-]; by rewrite (IH records').
Qed.

Lemma promise_all_skip pages :
  ALOGOLIA_SKIP_ON_ERROR = true →
  promise_all (page_result <$> pages) = inr (page_records <$> pages).
Proof.
  intros Hskip. induction pages as [|pageFm pages IH]; [reflexivity|].
  cbn. rewrite IH. unfold page_result, page_records. rewrite Hskip.
  by destruct (page_attempt pageFm).
Qed.

Lemma promise_all_reject pages pageFm e :
  ALOGOLIA_SKIP_ON_ERROR = false →
  pageFm ∈ pages → page_attempt pageFm = inl e →
  ∃ e', promise_all (page_result <$> pages) = inl e'.
Proof.
  intros Hskip Hin Hfail. induction Hin as [pageFm pages|pageFm other pages Hin IH].
  - cbn. unfold page_result at 1. rewrite Hfail, Hskip. eauto.
  - cbn. destruct (page_result other); [eauto|].
    destruct (IH Hfail) as [e' ->]. eauto.
Qed.

(** ** The whole run *)

Lemma script_ok_configured st : result (script st) = inr () → configured.
Proof.
  intros Hok. unfold configured.
  destruct (truthy_string ALGOLIA_APP_ID) eqn:Hid,
    (truthy_string ALGOLIA_API_KEY) eqn:Hkey,
    (truthy_string DOCS_INDEX_NAME) eqn:Hname; [done|..];
    (destruct script_not_configured as [e He];
     [unfold configured; rewrite Hid, Hkey, Hname; naive_solver
     |by rewrite He in Hok]).
Qed.

Lemma script_run st :
  configured →
  ∃ appId apiKey indexName,
    ALGOLIA_APP_ID = Some appId ∧ ALGOLIA_API_KEY = Some apiKey
    ∧ DOCS_INDEX_NAME = Some indexName
    ∧ script st =
        match promise_all (page_result <$> indexable_pages) with
        | inl e =>
            {| result := inl e; remote := st;
               emitted := Algoliasearch appId apiKey :: InitIndex indexName
                 :: load_event :: concat (page_events <$> indexable_pages) |}
        | inr _ =>
            {| result := inr (); remote := upload_remote st uploaded_records;
               emitted := Algoliasearch appId apiKey :: InitIndex indexName
                 :: load_event :: concat (page_events <$> indexable_pages)
                 ++ upload_events st uploaded_records |}
        end.
Proof.
  intros Hconf.
  destruct (script_configured Hconf) as (appId & apiKey & indexName & ? & ? & ? & Hrun).
  exists appId, apiKey, indexName. do 3 (split; [done|]).
  rewrite Hrun, indexAndUpload_run, generateAlogliaRecords_run. cbv zeta.
  fold indexable_pages. unfold uploaded_records.
  destruct (promise_all (page_result <$> indexable_pages)) as [e|records] eqn:Hall;
    [reflexivity|].
  by rewrite (promise_all_records _ _ Hall).
Qed.

Lemma script_ok st :
  result (script st) = inr () →
  ∃ appId apiKey indexName,
    ALGOLIA_APP_ID = Some appId ∧ ALGOLIA_API_KEY = Some apiKey
    ∧ DOCS_INDEX_NAME = Some indexName
    ∧ script st =
        {| result := inr (); remote := upload_remote st uploaded_records;
           emitted := Algoliasearch appId apiKey :: InitIndex indexName
             :: load_event :: concat (page_events <$> indexable_pages)
             ++ upload_events st uploaded_records |}.
Proof.
  intros Hok.
  destruct (script_run st (script_ok_configured st Hok))
    as (appId & apiKey & indexName & ? & ? & ? & Hrun).
  exists appId, apiKey, indexName. do 3 (split; [done|]).
  rewrite Hrun in Hok |- *.
  by destruct (promise_all (page_result <$> indexable_pages)).
Qed.

Lemma upload_remote_dom st records :
  dom (upload_remote st records) = list_to_set (index_save st records).2.
Proof.
  unfold upload_remote.
  pose proof (index_save_dom st records) as Hdom.
  destruct (index_save st records) as [st' saved]. cbn [fst snd] in *.
  pose proof (elem_of_stale_ids st saved) as Hstale.
  apply set_eq. intros id. rewrite elem_of_list_to_set.
  destruct (stale_ids st saved) as [|stale0 stale].
  - rewrite Hdom, elem_of_union, elem_of_list_to_set.
    specialize (Hstale id). rewrite elem_of_nil in Hstale.
    destruct (decide (id ∈ saved)); naive_solver.
  - rewrite index_delete_dom, elem_of_difference, Hdom, elem_of_union,
      !elem_of_list_to_set, Hstale.
    destruct (decide (id ∈ saved)); naive_solver.
Qed.

Lemma remote_calls_script_ok st :
  result (script st) = inr () →
  remote_calls (emitted (script st)) = remote_calls (upload_events st uploaded_records).
Proof.
  intros Hok. destruct (script_ok st Hok) as (? & ? & ? & _ & _ & _ & ->).
  unfold emitted at 1, remote_calls at 1. cbn [List.filter is_remote_call].
  assert (is_remote_call load_event = false) as ->
    by (unfold load_event; by destruct isDeveloperDocs).
  fold (remote_calls (concat (page_events <$> indexable_pages)
                        ++ upload_events st uploaded_records)).
  by rewrite remote_calls_app, remote_calls_pages.
Qed.

Lemma SaveObjects_upload st records :
  SaveObjects records (index_save st records).2 ∈ upload_events st records.
Proof. unfold upload_events. cbv zeta. set_solver. Qed.

Lemma DeleteObjects_upload st records id :
  id ∈ stale_ids st (index_save st records).2 →
  DeleteObjects (stale_ids st (index_save st records).2) ∈ upload_events st records.
Proof.
  intros Hid. unfold upload_events. cbv zeta. apply elem_of_app. right.
  destruct (stale_ids st (index_save st records).2) as [|stale0 stale];
    [by apply elem_of_nil in Hid|].
  apply list_elem_of_further, list_elem_of_here.
Qed.

(** ** Reconciliation *)

(** C1: after a run that completes, the identifiers of the remote index are
    exactly the identifiers that the bulk save of the records of the
    indexable pages returned: every saved identifier is there, and every
    identifier that was there before the run and is not among the saved
    ones has been handed to the bulk delete and is gone. *)
Theorem remote_ids_are_saved_ids st :
  result (script st) = inr () →
  ∃ saved,
    SaveObjects uploaded_records saved ∈ emitted (script st)
    ∧ dom (remote (script st)) = list_to_set saved
    ∧ (∀ id, id ∈ saved → id ∈ dom (remote (script st)))
    ∧ (∀ id, id ∈ dom st → id ∉ saved →
         (id ∉ dom (remote (script st)))
         ∧ ∃ stale, DeleteObjects stale ∈ emitted (script st) ∧ id ∈ stale).
Proof.
  intros Hok. destruct (script_ok st Hok) as (? & ? & ? & _ & _ & _ & ->).
  cbn [emitted remote].
  exists (index_save st uploaded_records).2.
  rewrite upload_remote_dom. split; [|split; [done|split]].
  - rewrite !elem_of_cons, elem_of_app. do 4 right. apply SaveObjects_upload.
  - intros id. by rewrite elem_of_list_to_set.
  - intros id Hold Hnew. split; [by rewrite elem_of_list_to_set|].
    assert (id ∈ stale_ids st (index_save st uploaded_records).2) as Hstale
      by (by apply elem_of_stale_ids).
    exists (stale_ids st (index_save st uploaded_records).2). split; [|done].
    rewrite !elem_of_cons, elem_of_app. do 4 right.
    by apply (DeleteObjects_upload _ _ id).
Qed.

(** C2, as the code has it: a run that completes first enumerates the
    identifiers of the remote index, then uploads the collected records in
    bulk, and last deletes in bulk the enumerated identifiers that the
    upload did not return, when there are any. *)
Theorem remote_steps_in_order st :
  result (script st) = inr () →
  ∃ saved,
    saved = (index_save st uploaded_records).2
    ∧ remote_calls (emitted (script st)) =
        BrowseObjects :: SaveObjects uploaded_records saved
          :: match stale_ids st saved with
             | [] => []
             | stale => [DeleteObjects stale]
             end
    ∧ ∀ id, id ∈ stale_ids st saved ↔ id ∈ dom st ∧ id ∉ saved.
Proof.
  intros Hok. exists (index_save st uploaded_records).2.
  split; [done|]. split; [|apply elem_of_stale_ids].
  by rewrite remote_calls_script_ok, remote_calls_upload.
Qed.

Lemma remote_calls_without_stale st :
  result (script st) = inr () →
  stale_ids st (index_save st uploaded_records).2 = [] →
  remote_calls (emitted (script st)) =
    [BrowseObjects;
     SaveObjects uploaded_records (index_save st uploaded_records).2].
Proof.
  intros Hok Hstale.
  rewrite remote_calls_script_ok, remote_calls_upload by done.
  cbv zeta. by rewrite Hstale.
Qed.

Lemma remote_call_kept e events :
  e ∈ events → is_remote_call e = true → e ∈ remote_calls events.
Proof.
  intros Hin Hremote. unfold remote_calls.
  apply list_elem_of_In, filter_In. by rewrite <- list_elem_of_In.
Qed.

(** C9: when no identifier of the index is missing from the saved ones, a
    run that completes never calls the bulk delete: the upload is its only
    write, and the index is left as the upload made it. *)
Theorem no_delete_without_stale st :
  result (script st) = inr () →
  stale_ids st (index_save st uploaded_records).2 = [] →
  (∀ ids, DeleteObjects ids ∉ emitted (script st))
  ∧ remote_calls (emitted (script st)) =
      [BrowseObjects;
       SaveObjects uploaded_records (index_save st uploaded_records).2]
  ∧ remote (script st) = (index_save st uploaded_records).1.
Proof.
  intros Hok Hstale.
  pose proof (remote_calls_without_stale st Hok Hstale) as Hcalls.
  split; [|split; [done|]].
  - intros ids Hin. apply remote_call_kept in Hin; [|done].
    rewrite Hcalls, !elem_of_cons, elem_of_nil in Hin.
    by destruct Hin as [?|[?|[]]].
  - destruct (script_ok st Hok) as (? & ? & ? & _ & _ & _ & ->).
    cbn [remote]. unfold upload_remote.
    destruct (index_save st uploaded_records) as [st' saved].
    cbn [fst snd] in *. by rewrite Hstale.
Qed.

(** ** Failures of single pages *)

Lemma configured_dec : configured ∨ ¬ configured.
Proof.
  unfold configured.
  destruct (truthy_string ALGOLIA_APP_ID), (truthy_string ALGOLIA_API_KEY),
    (truthy_string DOCS_INDEX_NAME); naive_solver.
Qed.

Lemma remote_calls_script st :
  remote_calls (emitted (script st)) =
    match result (script st) with
    | inl _ => []
    | inr _ => remote_calls (upload_events st uploaded_records)
    end.
Proof.
  destruct (result (script st)) as [e|[]] eqn:Hres;
    [|by apply remote_calls_script_ok].
  destruct configured_dec as [Hconf|Hnot].
  - destruct (script_run st Hconf) as (? & ? & ? & _ & _ & _ & Hrun).
    rewrite Hrun in Hres |- *.
    destruct (promise_all (page_result <$> indexable_pages)); [|discriminate].
    unfold emitted, remote_calls. cbn [List.filter is_remote_call].
    assert (is_remote_call load_event = false) as ->
      by (unfold load_event; by destruct isDeveloperDocs).
    apply remote_calls_pages.
  - destruct (script_not_configured Hnot) as [e' He'].
    rewrite He' in Hres |- *. done.
Qed.

Lemma missing_artifact_fails pageFm st :
  files !! page_htmlFile pageFm = None →
  ∃ e, result (getRecords_try pageFm st) = inl e.
Proof.
  intros Hnone. rewrite getRecords_try_run. unfold result, page_attempt.
  rewrite Hnone. eauto.
Qed.

Lemma elem_of_indexable_pages pageFm :
  pageFm ∈ indexable_pages ↔ pageFm ∈ site_pages ∧ indexable pageFm = true.
Proof. unfold indexable_pages. by rewrite !list_elem_of_In, filter_In. Qed.

(** C3: with the skip-on-error flag off, the failure of a single indexable
    page (a missing HTML file, or a failure of the generator) makes the
    whole run fail before any call to the remote index: nothing is
    uploaded, nothing is deleted, and the index is as it was. *)
Theorem page_failure_aborts st pageFm e :
  ALOGOLIA_SKIP_ON_ERROR = false →
  pageFm ∈ site_pages → indexable pageFm = true →
  result (getRecords_try pageFm st) = inl e →
  (∃ e', result (script st) = inl e')
  ∧ remote_calls (emitted (script st)) = []
  ∧ remote (script st) = st.
Proof.
  intros Hskip Hin Hok Hfail.
  rewrite getRecords_try_run in Hfail. cbn [result] in Hfail.
  assert (∃ e', result (script st) = inl e' ∧ remote (script st) = st)
    as (e' & Hres & Hremote).
  { destruct configured_dec as [Hconf|Hnot].
    - destruct (script_run st Hconf) as (? & ? & ? & _ & _ & _ & ->).
      destruct (promise_all_reject indexable_pages pageFm e) as [e' ->];
        [done|by apply elem_of_indexable_pages|done|].
      by exists e'.
    - destruct (script_not_configured Hnot) as [e' ->]. by exists e'. }
  split; [by exists e'|]. split; [|done].
  by rewrite remote_calls_script, Hres.
Qed.

Lemma elem_of_concat {A} (x : A) (ls : list (list A)) :
  x ∈ concat ls ↔ ∃ l, x ∈ l ∧ l ∈ ls.
Proof.
  induction ls as [|l ls IH]; cbn [concat].
  - rewrite elem_of_nil. split; [done|]. intros (l & _ & Hl). by inv Hl.
  - rewrite elem_of_app, IH. split.
    + intros [Hx|(l' & Hx & Hl')]; [exists l|exists l'];
        rewrite elem_of_cons; auto.
    + intros (l' & Hx & [->|Hl']%elem_of_cons); eauto.
Qed.

Lemma page_records_uploaded pageFm r :
  pageFm ∈ indexable_pages → r ∈ page_records pageFm → r ∈ uploaded_records.
Proof.
  intros Hin Hr. unfold uploaded_records.
  apply elem_of_concat. exists (page_records pageFm). split; [done|].
  apply list_elem_of_fmap. by exists pageFm.
Qed.

(** C4: with the skip-on-error flag on, an indexable page whose processing
    fails gives no record, its error is written to the console, and the run
    goes on to upload the records of the other pages. *)
Theorem page_failure_skipped st pageFm e :
  ALOGOLIA_SKIP_ON_ERROR = true → configured →
  pageFm ∈ site_pages → indexable pageFm = true →
  result (getRecords_try pageFm st) = inl e →
  result (getRecords pageFm st) = inr []
  ∧ ConsoleError (page_error pageFm e) ∈ emitted (getRecords pageFm st)
  ∧ ConsoleError (page_error pageFm e) ∈ emitted (script st)
  ∧ result (script st) = inr ()
  ∧ ∃ saved,
      SaveObjects uploaded_records saved ∈ emitted (script st)
      ∧ ∀ other records r,
          other ∈ site_pages → indexable other = true →
          result (getRecords_try other st) = inr records →
          r ∈ records → r ∈ uploaded_records.
Proof.
  intros Hskip Hconf Hin Hok Hfail.
  rewrite getRecords_try_run in Hfail. cbn [result] in Hfail.
  assert (ConsoleError (page_error pageFm e) ∈ page_events pageFm) as Hlogged.
  { unfold page_events. rewrite Hfail, Hskip.
    rewrite elem_of_cons, elem_of_app. right. right. by left. }
  destruct (script_run st Hconf) as (? & ? & ? & _ & _ & _ & ->).
  rewrite promise_all_skip by done. rewrite getRecords_run.
  cbn [result emitted]. unfold page_result at 1. rewrite Hfail, Hskip.
  split; [done|]. split; [done|]. split; [|split; [done|]].
  - rewrite !elem_of_cons, elem_of_app. do 3 right. left.
    apply elem_of_concat. exists (page_events pageFm). split; [done|].
    apply list_elem_of_fmap. exists pageFm.
    split; [done|by apply elem_of_indexable_pages].
  - exists (index_save st uploaded_records).2. split.
    + rewrite !elem_of_cons, elem_of_app. do 4 right. apply SaveObjects_upload.
    + intros other records r Hother Hindexable Hrecords Hr.
      rewrite getRecords_try_run in Hrecords. cbn [result] in Hrecords.
      apply (page_records_uploaded other); [by apply elem_of_indexable_pages|].
      unfold page_records. by rewrite Hrecords.
Qed.

(** ** The calls of the generator *)

Lemma generator_event_of_page pageFm html meta selector :
  HtmlToAlgoliaRecord html meta selector ∈ page_events pageFm →
  files !! page_htmlFile pageFm = Some html
  ∧ meta = page_meta pageFm ∧ selector = "#main".
Proof.
  unfold page_events, page_attempt_events.
  rewrite elem_of_cons, elem_of_app, elem_of_cons.
  intros [?|[[?|Hin]|Hin]]; try discriminate.
  - destruct (files !! page_htmlFile pageFm) as [html'|]; [|by inv Hin].
    apply list_elem_of_singleton in Hin. by inv Hin.
  - destruct (page_attempt pageFm); [|by inv Hin].
    destruct ALOGOLIA_SKIP_ON_ERROR; [|by inv Hin].
    apply list_elem_of_singleton in Hin. discriminate.
Qed.

(** C5: whatever the list of front matters, every call of the record
    generator is made for a page of the list that is not a draft, is not
    marked no-index and has a title. *)
Theorem generator_only_on_indexable pageFrontMatters st html meta selector :
  HtmlToAlgoliaRecord html meta selector
    ∈ emitted (generateAlogliaRecords pageFrontMatters st) →
  ∃ pageFm,
    pageFm ∈ pageFrontMatters
    ∧ truthy_flag (draft pageFm) = false
    ∧ truthy_flag (noindex pageFm) = false
    ∧ truthy_string (title pageFm) = true
    ∧ files !! page_htmlFile pageFm = Some html
    ∧ meta = page_meta pageFm ∧ selector = "#main".
Proof.
  rewrite generateAlogliaRecords_run. cbn [emitted].
  intros (events & Hin & (pageFm & -> & Hpage)%list_elem_of_fmap)%elem_of_concat.
  apply list_elem_of_In, filter_In in Hpage as [Hpage Hok].
  apply list_elem_of_In in Hpage.
  unfold indexable in Hok.
  apply andb_true_iff in Hok as [[Hdraft Hnoindex]%andb_true_iff Htitle].
  apply negb_true_iff in Hdraft, Hnoindex.
  destruct (generator_event_of_page _ _ _ _ Hin) as (? & ? & ?).
  by exists pageFm.
Qed.

Lemma generator_calls_rendered pages :
  concat (page_generator_calls <$> pages) = page_call <$> List.filter is_rendered pages.
Proof.
  induction pages as [|pageFm pages IH]; [reflexivity|].
  cbn [fmap list_fmap concat List.filter].
  fold (page_generator_calls <$> pages). rewrite IH.
  unfold page_generator_calls at 1, is_rendered at 2.
  destruct (files !! page_htmlFile pageFm) as [html|] eqn:Hfile.
  - rewrite bool_decide_eq_true_2 by eauto. cbn [fmap list_fmap app].
    unfold page_call at 2, page_html. by rewrite Hfile.
  - by rewrite bool_decide_eq_false_2 by (by intros [? ?]).
Qed.

Lemma page_records_rendered pages :
  concat (page_records <$> pages)
  = concat (generator_result <$> List.filter is_rendered pages).
Proof.
  induction pages as [|pageFm pages IH]; [reflexivity|].
  cbn [fmap list_fmap concat List.filter].
  fold (page_records <$> pages). rewrite IH.
  unfold page_records at 1, page_attempt, is_rendered at 2.
  destruct (files !! page_htmlFile pageFm) as [html|] eqn:Hfile.
  - rewrite bool_decide_eq_true_2 by eauto. cbn [fmap list_fmap concat].
    unfold generator_result at 2, page_html. by rewrite Hfile.
  - by rewrite bool_decide_eq_false_2 by (by intros [? ?]).
Qed.

Lemma SaveObjects_script st records saved :
  SaveObjects records saved ∈ emitted (script st) →
  result (script st) = inr () ∧ records = uploaded_records.
Proof.
  intros Hin.
  assert (SaveObjects records saved ∈ remote_calls (emitted (script st))) as Hin'
    by (by apply remote_call_kept).
  rewrite remote_calls_script in Hin'.
  destruct (result (script st)) as [e|[]]; [by inv Hin'|]. split; [done|].
  rewrite remote_calls_upload in Hin'. cbv zeta in Hin'.
  rewrite !elem_of_cons in Hin'. destruct Hin' as [?|[[= -> _]|Hin']]; try done.
  destruct (stale_ids st _); [by inv Hin'|].
  apply list_elem_of_singleton in Hin'. discriminate.
Qed.

(** C6: whatever the list of front matters, the record generator is called
    exactly once for every page of the list that passes the filter and whose
    HTML file is on disk, in the order of the list; the records that come
    out are the concatenation of what the generator made of these pages; and
    the record list of an upload is that concatenation for the pages of the
    site. *)
Theorem generator_once_per_rendered_page pageFrontMatters st :
  generator_calls (emitted (generateAlogliaRecords pageFrontMatters st))
  = page_call <$> rendered pageFrontMatters
  ∧ (∀ records,
       result (generateAlogliaRecords pageFrontMatters st) = inr records →
       records = concat (generator_result <$> rendered pageFrontMatters))
  ∧ (∀ records saved,
       SaveObjects records saved ∈ emitted (script st) →
       records = concat (generator_result <$> rendered site_pages)).
Proof.
  unfold rendered. rewrite generateAlogliaRecords_run. cbn [result emitted].
  split; [|split].
  - by rewrite generator_calls_pages, generator_calls_rendered.
  - intros records Hrecords. rewrite <- page_records_rendered.
    destruct (promise_all _) as [e|pageRecords] eqn:Hall; [discriminate|].
    injection Hrecords as <-. by rewrite (promise_all_records _ _ Hall).
  - intros records saved Hin. apply SaveObjects_script in Hin as [_ ->].
    by rewrite <- page_records_rendered.
Qed.

(** ** The settings *)

(** C7: when one of the three required settings is absent, the run fails
    at once: it reads no page, constructs no client and calls nothing. *)
Theorem missing_setting_is_fatal st :
  ALGOLIA_APP_ID = None ∨ ALGOLIA_API_KEY = None ∨ DOCS_INDEX_NAME = None →
  (∃ e, result (script st) = inl e)
  ∧ emitted (script st) = []
  ∧ remote (script st) = st.
Proof.
  intros Hmissing.
  destruct script_not_configured as [e ->]; [|by eauto].
  unfold configured. intros (Hid & Hkey & Hname).
  destruct Hmissing as [Hnone|[Hnone|Hnone]]; rewrite Hnone in *; discriminate.
Qed.


(** ** Running twice *)

Lemma index_save_given_ids (records : list AlgoliaRecord) st acc :
  (∀ r, r ∈ records → is_Some (objectID r)) →
  (foldl index_add (st, acc) records).2 = acc ++ omap objectID records.
Proof.
  revert st acc. induction records as [|r records IH]; intros st acc Hids;
    cbn [foldl omap list_omap].
  - by rewrite app_nil_r.
  - destruct (Hids r) as [id Hid]; [by left|].
    unfold index_add at 2. rewrite Hid. cbn [fst snd].
    rewrite IH by (intros r' Hr'; apply Hids; by right).
    by rewrite <- app_assoc.
Qed.

Lemma script_result_indep st st' : result (script st) = result (script st').
Proof.
  destruct configured_dec as [Hconf|Hnot].
  - destruct (script_run st Hconf) as (? & ? & ? & _ & _ & _ & ->).
    destruct (script_run st' Hconf) as (? & ? & ? & _ & _ & _ & ->).
    by destruct (promise_all (page_result <$> indexable_pages)).
  - destruct (script_not_configured Hnot) as [e He]. by rewrite !He.
Qed.

Lemma stale_ids_nil st saved :
  (∀ id, id ∈ dom st → id ∈ saved) → stale_ids st saved = [].
Proof.
  intros Hsub. destruct (stale_ids st saved) as [|id stale] eqn:Hstale; [done|].
  assert (id ∈ stale_ids st saved) as Hin by (rewrite Hstale; by left).
  apply elem_of_stale_ids in Hin as [Hdom Hnot]. destruct Hnot. by apply Hsub.
Qed.

(** C8: a second run right after a run that completed, on the same pages,
    completes too, deletes nothing and leaves the identifiers of the remote
    index as the first run left them. The records bring their identifiers,
    as every record has one in the data of the script and every record of
    the generator does. *)
Theorem second_run_is_idle st :
  (∀ r, r ∈ uploaded_records → is_Some (objectID r)) →
  result (script st) = inr () →
  result (script (remote (script st))) = inr ()
  ∧ (∀ ids, DeleteObjects ids ∉ emitted (script (remote (script st))))
  ∧ dom (remote (script (remote (script st)))) = dom (remote (script st)).
Proof.
  intros Hids Hok.
  assert (result (script (remote (script st))) = inr ()) as Hok2
    by (by rewrite (script_result_indep _ st)).
  assert (dom (remote (script st)) = list_to_set (omap objectID uploaded_records))
    as Hdom.
  { destruct (script_ok st Hok) as (? & ? & ? & _ & _ & _ & ->).
    cbn [remote]. rewrite upload_remote_dom. unfold index_save.
    by rewrite index_save_given_ids. }
  assert ((index_save (remote (script st)) uploaded_records).2
          = omap objectID uploaded_records) as Hsaved
    by (unfold index_save; by rewrite index_save_given_ids).
  assert (stale_ids (remote (script st))
            (index_save (remote (script st)) uploaded_records).2 = []) as Hstale.
  { apply stale_ids_nil. intros id. rewrite Hsaved, Hdom.
    by rewrite elem_of_list_to_set. }
  split; [done|]. split.
  - intros ids Hin. apply remote_call_kept in Hin; [|done].
    rewrite remote_calls_without_stale in Hin by done.
    rewrite !elem_of_cons, elem_of_nil in Hin. by destruct Hin as [?|[?|[]]].
  - destruct (script_ok _ Hok2) as (? & ? & ? & _ & _ & _ & ->).
    cbn [remote]. by rewrite upload_remote_dom, Hsaved, Hdom.
Qed.

(** ** Beyond the claims: [fetchExistingRecordIds] *)

Lemma JSSet_add_keeps_NoDup (s : JSSet.t) x : NoDup s → NoDup (JSSet.add s x).
Proof.
  intros Hnd. unfold JSSet.add, JSSet.has. case_bool_decide; [done|].
  apply NoDup_app. split; [done|]. split; [|apply NoDup_singleton].
  intros y Hy ->%list_elem_of_singleton. done.
Qed.

Lemma JSSet_foldl_NoDup (l : list string) (s : JSSet.t) :
  NoDup s → NoDup (foldl JSSet.add s l).
Proof.
  revert s. induction l as [|x l IH]; intros s Hnd; [done|].
  cbn [foldl]. by apply IH, JSSet_add_keeps_NoDup.
Qed.

Lemma collect_ids_of_list chunks :
  collect_ids chunks = JSSet.of_list (hit_objectID <$> concat chunks).
Proof.
  unfold collect_ids, JSSet.to_list, JSSet.of_list.
  rewrite (foldl_chunks (λ ids record, JSSet.add ids (hit_objectID record))).
  by rewrite foldl_fmap.
Qed.

(** X1: whatever pages of hits the enumeration hands to the callback, with
    or without repeated hits, the collected list holds every identifier of a
    hit, and each one once. *)
Theorem collect_ids_once chunks :
  NoDup (collect_ids chunks)
  ∧ ∀ id, id ∈ collect_ids chunks
          ↔ ∃ chunk hit, chunk ∈ chunks ∧ hit ∈ chunk ∧ hit_objectID hit = id.
Proof.
  rewrite collect_ids_of_list. split.
  - apply JSSet_foldl_NoDup, NoDup_nil_2.
  - intros id. rewrite JSSet_of_list_elem, list_elem_of_fmap. split.
    + intros (hit & -> & (chunk & Hhit & Hchunk)%elem_of_concat). by exists chunk, hit.
    + intros (chunk & hit & Hchunk & Hhit & <-). exists hit. split; [done|].
      apply elem_of_concat. by exists chunk.
Qed.

(** X2: [fetchExistingRecordIds] resolves to the identifiers of the records
    of the index, each once; it is what the callback collects from the pages
    of the enumeration; the call enumerates once, writes nothing and leaves
    the index as it was. *)
Theorem fetchExistingRecordIds_reads_all st :
  ∃ ids,
    result (fetchExistingRecordIds st) = inr ids
    ∧ ids = collect_ids (index_browse st)
    ∧ NoDup ids
    ∧ (∀ id, id ∈ ids ↔ id ∈ dom st)
    ∧ remote_calls (emitted (fetchExistingRecordIds st)) = [BrowseObjects]
    ∧ remote (fetchExistingRecordIds st) = st.
Proof.
  exists (index_ids st).
  assert (result (fetchExistingRecordIds st) = inr (collect_ids (index_browse st)))
    as Hcollect by reflexivity.
  rewrite fetchExistingRecordIds_run in Hcollect |- *. cbn [result] in Hcollect.
  injection Hcollect as Hcollect.
  split; [done|]. split; [done|]. split; [apply NoDup_index_ids|].
  split; [apply elem_of_index_ids|]. by split.
Qed.

(** ** Beyond the claims: the generation *)

(** X3: the generation of the records of any list of front matters makes no
    call to the remote index and leaves it as it was, and neither its result
    nor its events depend on what the index holds. *)
Theorem generation_leaves_index_alone pageFrontMatters st :
  remote (generateAlogliaRecords pageFrontMatters st) = st
  ∧ remote_calls (emitted (generateAlogliaRecords pageFrontMatters st)) = []
  ∧ ∀ st',
      result (generateAlogliaRecords pageFrontMatters st')
      = result (generateAlogliaRecords pageFrontMatters st)
      ∧ emitted (generateAlogliaRecords pageFrontMatters st')
        = emitted (generateAlogliaRecords pageFrontMatters st).
Proof.
  split; [|split].
  - by rewrite generateAlogliaRecords_run.
  - rewrite generateAlogliaRecords_run. apply remote_calls_pages.
  - intros st'. by rewrite !generateAlogliaRecords_run.
Qed.

(** X4: for a page whose HTML file is not on disk, the events of
    [getRecords] are exactly the log of the slug, the read of the path and,
    with the skip-on-error flag, one [console.error] of the error: the
    record generator is never called, and without the flag nothing is
    written with [console.error]. With the flag the page gives no record,
    without it [getRecords] throws. The error names the slug of the page,
    carries the message of the file system and keeps the error of the file
    system as its cause. The index is left as it was. *)
Theorem missing_file_skips_generator pageFm st :
  files !! page_htmlFile pageFm = None →
  let error :=
    CausedError ("🔴 Error processing " +:+ slug pageFm +:+ ": "
                   +:+ message (ENOENT (page_htmlFile pageFm)))
      (ENOENT (page_htmlFile pageFm)) in
  emitted (getRecords pageFm st)
  = ConsoleLog "processing:" [ArgStr (slug pageFm)]
    :: ReadFileSync (page_htmlFile pageFm)
    :: (if ALOGOLIA_SKIP_ON_ERROR then [ConsoleError error] else [])
  ∧ result (getRecords pageFm st)
    = (if ALOGOLIA_SKIP_ON_ERROR then inr [] else inl error)
  ∧ remote (getRecords pageFm st) = st.
Proof.
  intros Hnone error. rewrite getRecords_run. cbn [result emitted remote].
  unfold page_result, page_events, page_attempt_events, page_attempt.
  rewrite Hnone. fold (ENOENT (page_htmlFile pageFm)).
  fold (page_error pageFm (ENOENT (page_htmlFile pageFm))).
  change (page_error pageFm (ENOENT (page_htmlFile pageFm))) with error.
  by destruct ALOGOLIA_SKIP_ON_ERROR.
Qed.

Lemma promise_all_app {A} (ps1 ps2 : list (Error + A)) :
  promise_all (ps1 ++ ps2) =
    match promise_all ps1 with
    | inl e => inl e
    | inr xs1 =>
        match promise_all ps2 with
        | inl e => inl e
        | inr xs2 => inr (xs1 ++ xs2)
        end
    end.
Proof.
  induction ps1 as [|[e|x] ps1 IH]; cbn [app promise_all].
  - by destruct (promise_all ps2).
  - done.
  - rewrite IH. destruct (promise_all ps1); [done|]. by destruct (promise_all ps2).
Qed.

Lemma page_work_app events1 events2 :
  page_work (events1 ++ events2) = page_work events1 ++ page_work events2.
Proof. apply List.filter_app. Qed.

(** X8: the generation of a list of front matters in two parts is the
    generation of the parts, one after the other: the file reads and the
    calls of the generator of the first part come before those of the
    second, the records are those of the first part followed by those of
    the second, and the whole fails exactly when a part fails. *)
Theorem generation_of_app pageFrontMatters1 pageFrontMatters2 st :
  let whole := generateAlogliaRecords (pageFrontMatters1 ++ pageFrontMatters2) st in
  let part1 := generateAlogliaRecords pageFrontMatters1 st in
  let part2 := generateAlogliaRecords pageFrontMatters2 st in
  page_work (emitted whole) = page_work (emitted part1) ++ page_work (emitted part2)
  ∧ (∀ records1 records2,
       result part1 = inr records1 → result part2 = inr records2 →
       result whole = inr (records1 ++ records2))
  ∧ ((∃ e, result whole = inl e)
     ↔ (∃ e, result part1 = inl e) ∨ (∃ e, result part2 = inl e)).
Proof.
  cbv zeta. rewrite <- page_work_app.
  rewrite !generateAlogliaRecords_run. cbv zeta. cbn [result emitted].
  rewrite List.filter_app, !fmap_app, concat_app, promise_all_app.
  split; [done|].
  destruct (promise_all (page_result <$> List.filter indexable pageFrontMatters1))
    as [e1|pageRecords1];
    destruct (promise_all (page_result <$> List.filter indexable pageFrontMatters2))
    as [e2|pageRecords2];
    (split; [intros records1 records2; try discriminate|]).
  - split; eauto.
  - split; eauto.
  - split; eauto.
  - intros [= <-] [= <-]. by rewrite concat_app.
  - split; [intros [? ?]; discriminate|]. by intros [[? ?]|[? ?]].
Qed.

(** X9: a page that is a draft, is marked no-index or has no title has no
    effect on the generation, wherever it stands in the list: the records,
    the failure and every event, the console included, are those of the list
    without it. *)
Theorem unindexable_page_has_no_effect pageFrontMatters1 pageFm pageFrontMatters2 st :
  indexable pageFm = false →
  generateAlogliaRecords (pageFrontMatters1 ++ pageFm :: pageFrontMatters2) st
  = generateAlogliaRecords (pageFrontMatters1 ++ pageFrontMatters2) st.
Proof.
  intros Hno. rewrite !generateAlogliaRecords_run. cbv zeta.
  rewrite !List.filter_app. cbn [List.filter]. by rewrite Hno.
Qed.

(** ** Beyond the claims: the run *)

Lemma promise_all_fulfilled pages :
  (∀ pageFm, pageFm ∈ pages → ∃ records, page_attempt pageFm = inr records) →
  promise_all (page_result <$> pages) = inr (page_records <$> pages).
Proof.
  induction pages as [|pageFm pages IH]; intros Hall; [reflexivity|].
  cbn. rewrite IH by (intros other Hother; apply Hall; by right).
  destruct (Hall pageFm) as [records Hrecords]; [by left|].
  unfold page_result, page_records. by rewrite Hrecords.
Qed.

(** X6: the generation of the records of a list of front matters succeeds
    exactly when the skip-on-error flag is on or the processing of every
    page of the list that passes the filter succeeds; and a run that
    completes had its three required settings and a generation that
    succeeded. *)
Theorem generation_succeeds_iff pageFrontMatters st :
  ((∃ records, result (generateAlogliaRecords pageFrontMatters st) = inr records)
   ↔ ALOGOLIA_SKIP_ON_ERROR = true
     ∨ ∀ pageFm, pageFm ∈ pageFrontMatters → indexable pageFm = true →
         ∃ records, result (getRecords_try pageFm st) = inr records)
  ∧ (result (script st) = inr () →
     configured
     ∧ ∃ records, result (generateAlogliaRecords site_pages st) = inr records).
Proof.
  split.
  - rewrite generateAlogliaRecords_run. cbv zeta. cbn [result]. split.
    + intros [records Hrecords].
      destruct ALOGOLIA_SKIP_ON_ERROR eqn:Hskip; [by left|right].
      intros pageFm Hin Hindexable. rewrite getRecords_try_run. cbn [result].
      destruct (page_attempt pageFm) as [e|pageRecords] eqn:Hattempt;
        [|by exists pageRecords].
      destruct (promise_all_reject (List.filter indexable pageFrontMatters) pageFm e)
        as [e' He']; [done| |done|].
      * apply list_elem_of_In, filter_In. by rewrite <- list_elem_of_In.
      * by rewrite He' in Hrecords.
    + intros [Hskip|Hpages].
      * rewrite promise_all_skip by done. eauto.
      * rewrite promise_all_fulfilled; [eauto|].
        intros pageFm [Hin Hindexable]%list_elem_of_In%filter_In.
        apply list_elem_of_In in Hin.
        destruct (Hpages pageFm Hin Hindexable) as [records Hrecords].
        rewrite getRecords_try_run in Hrecords. by exists records.
  - intros Hok. pose proof (script_ok_configured st Hok) as Hconf.
    split; [done|].
    destruct (script_run st Hconf) as (? & ? & ? & _ & _ & _ & Hrun).
    rewrite Hrun in Hok. rewrite generateAlogliaRecords_run. cbv zeta.
    cbn [result]. fold indexable_pages.
    destruct (promise_all (page_result <$> indexable_pages)); [discriminate|eauto].
Qed.

Lemma falsy_setting (setting : option string) :
  setting = None ∨ setting = Some "" → truthy_string setting = false.
Proof. by intros [->| ->]. Qed.

(** X7: a required setting that is absent or the empty string stops the
    run before anything is done, and the error names the first such setting
    in the order [ALGOLIA_APP_ID], [ALGOLIA_API_KEY], [DOCS_INDEX_NAME]. *)
Theorem first_missing_setting_reported st :
  let stopped_on name :=
    {| result := inl (PlainError ("`" +:+ name
                                    +:+ "` env var must be configured in repo secrets"));
       remote := st; emitted := [] |} in
  (ALGOLIA_APP_ID = None ∨ ALGOLIA_APP_ID = Some "" →
   script st = stopped_on "ALGOLIA_APP_ID")
  ∧ (truthy_string ALGOLIA_APP_ID = true →
     ALGOLIA_API_KEY = None ∨ ALGOLIA_API_KEY = Some "" →
     script st = stopped_on "ALGOLIA_API_KEY")
  ∧ (truthy_string ALGOLIA_APP_ID = true → truthy_string ALGOLIA_API_KEY = true →
     DOCS_INDEX_NAME = None ∨ DOCS_INDEX_NAME = Some "" →
     script st = stopped_on "DOCS_INDEX_NAME").
Proof.
  cbv zeta. unfold script. split; [|split].
  - intros Hid%falsy_setting. run_M. by rewrite required_falsy.
  - intros Hid Hkey%falsy_setting.
    destruct (required_truthy _ "ALGOLIA_APP_ID" Hid) as (appId & _ & Hr1).
    run_M. rewrite Hr1. run_M. by rewrite required_falsy.
  - intros Hid Hkey Hname%falsy_setting.
    destruct (required_truthy _ "ALGOLIA_APP_ID" Hid) as (appId & _ & Hr1).
    destruct (required_truthy _ "ALGOLIA_API_KEY" Hkey) as (apiKey & _ & Hr2).
    run_M. rewrite Hr1. run_M. rewrite Hr2. run_M. by rewrite required_falsy.
Qed.

Lemma stale_ids_of_no_save st : stale_ids st [] = index_ids st.
Proof.
  unfold stale_ids. induction (index_ids st) as [|id ids IH]; [reflexivity|].
  cbn [List.filter]. by rewrite IH.
Qed.

(** X5: a run that completes without any record to upload deletes every
    record of the index: the index is empty afterwards, and when it was not
    empty before, all its identifiers were handed to the bulk delete. *)
Theorem empty_upload_empties_index st :
  result (script st) = inr () → uploaded_records = [] →
  remote (script st) = ∅
  ∧ (index_ids st ≠ [] → DeleteObjects (index_ids st) ∈ emitted (script st)).
Proof.
  intros Hok Hnone.
  destruct (script_ok st Hok) as (? & ? & ? & _ & _ & _ & ->).
  cbn [remote emitted]. rewrite Hnone. split.
  - apply dom_empty_iff_L. rewrite upload_remote_dom. reflexivity.
  - intros Hids. rewrite !elem_of_cons, elem_of_app. do 4 right.
    unfold upload_events. cbv zeta. cbn [index_save foldl snd].
    rewrite stale_ids_of_no_save. apply elem_of_app. right.
    destruct (index_ids st); [done|].
    apply list_elem_of_further, list_elem_of_here.
Qed.

(** ** Beyond the claims: what the index holds after a run *)

Lemma index_save_lookup (records : list AlgoliaRecord) id (Q : AlgoliaRecord → Prop)
    st acc :
  (∃ r0, st !! id = Some r0 ∧ Q r0) ∨ (∃ r, r ∈ records ∧ objectID r = Some id) →
  ∃ r', (foldl index_add (st, acc) records).1 !! id = Some r'
        ∧ (Q r' ∨ (r' ∈ records ∧ objectID r' = Some id)).
Proof.
  revert Q st acc. induction records as [|x records IH]; intros Q st acc Hpre.
  - destruct Hpre as [(r0 & Hr0 & HQ)|(r & Hr & _)]; [|by apply elem_of_nil in Hr].
    exists r0. cbn. auto.
  - cbn [foldl]. unfold index_add at 2. cbn [fst snd].
    set (id' := match objectID x with Some i => i | None => fresh (dom st) end).
    destruct (IH (λ r', Q r' ∨ (r' = x ∧ objectID x = Some id))
                (<[id':=x]> st) (acc ++ [id'])) as (r' & Hr' & Hwhich).
    { destruct Hpre as [(r0 & Hr0 & HQ)|(r & Hr & Hid)].
      - left. destruct (decide (id' = id)) as [Heq|Hne].
        + exists x. rewrite Heq, lookup_insert_eq. split; [done|]. right.
          split; [done|]. subst id'.
          destruct (objectID x) as [i|]; [by subst|].
          destruct (is_fresh (dom st)). rewrite Heq. apply elem_of_dom. by exists r0.
        + exists r0. rewrite lookup_insert_ne by done. auto.
      - apply elem_of_cons in Hr as [->|Hr]; [|right; by exists r].
        left. exists x. subst id'. rewrite Hid, lookup_insert_eq. auto. }
    exists r'. split; [done|].
    destruct Hwhich as [[HQ|[-> Hx]]|[Hin Hid]].
    + by left.
    + right. split; [by left|done].
    + right. split; [by right|done].
Qed.

Lemma index_save_has_id (records : list AlgoliaRecord) id st acc :
  id ∈ acc ∨ (∃ r, r ∈ records ∧ objectID r = Some id) →
  id ∈ (foldl index_add (st, acc) records).2.
Proof.
  revert st acc. induction records as [|x records IH]; intros st acc Hpre.
  - destruct Hpre as [?|(r & Hr & _)]; [done|by apply elem_of_nil in Hr].
  - cbn [foldl]. unfold index_add at 2. cbn [fst snd]. apply IH.
    destruct Hpre as [Hacc|(r & Hr & Hid)].
    + left. apply elem_of_app. by left.
    + apply elem_of_cons in Hr as [->|Hr].
      * left. rewrite Hid. apply elem_of_app. right. by left.
      * right. by exists r.
Qed.

Lemma index_delete_lookup_ne (ids : list string) (st : IndexState) id :
  id ∉ ids → index_delete st ids !! id = st !! id.
Proof.
  unfold index_delete. revert st.
  induction ids as [|i ids IH]; intros st Hid; [reflexivity|].
  cbn [foldl]. apply not_elem_of_cons in Hid as [Hne Hid].
  by rewrite IH, lookup_delete_ne.
Qed.

Lemma upload_remote_lookup_saved st records id :
  id ∈ (index_save st records).2 →
  upload_remote st records !! id = (index_save st records).1 !! id.
Proof.
  intros Hid. unfold upload_remote.
  pose proof (elem_of_stale_ids st (index_save st records).2 id) as Hstale.
  destruct (index_save st records) as [st' saved]. cbn [fst snd] in *.
  destruct (stale_ids st saved) as [|stale0 stale]; [done|].
  apply index_delete_lookup_ne. rewrite Hstale. by intros [_ ?].
Qed.

(** X10: after a run that completes, under the identifier that an uploaded
    record brings the index holds an uploaded record with this identifier:
    what an earlier run had stored there has been replaced, and the deletion
    has not removed it. *)
Theorem uploaded_record_is_stored st r id :
  result (script st) = inr () →
  r ∈ uploaded_records → objectID r = Some id →
  ∃ r', remote (script st) !! id = Some r'
        ∧ r' ∈ uploaded_records ∧ objectID r' = Some id.
Proof.
  intros Hok Hr Hid.
  destruct (script_ok st Hok) as (? & ? & ? & _ & _ & _ & ->). cbn [remote].
  rewrite upload_remote_lookup_saved
    by (apply index_save_has_id; right; by exists r).
  destruct (index_save_lookup uploaded_records id (λ _, False) st [])
    as (r' & Hr' & [[]|[Hin Hid']]); [right; by exists r|].
  by exists r'.
Qed.

(** X11: in every run, the work on the pages comes before the first call
    to the remote index: the events of the run split in two parts, of which
    the first makes no call to the remote index and the second reads no file
    and calls no generator. *)
Theorem page_work_precedes_remote_calls st :
  ∃ before after,
    emitted (script st) = before ++ after
    ∧ remote_calls before = []
    ∧ page_work after = [].
Proof.
  destruct configured_dec as [Hconf|Hnot].
  - destruct (script_run st Hconf) as (appId & apiKey & indexName & _ & _ & _ & ->).
    set (before := Algoliasearch appId apiKey :: InitIndex indexName
                     :: load_event :: concat (page_events <$> indexable_pages)).
    assert (remote_calls before = []) as Hbefore.
    { subst before. unfold remote_calls. cbn [List.filter is_remote_call].
      assert (is_remote_call load_event = false) as ->
        by (unfold load_event; by destruct isDeveloperDocs).
      apply remote_calls_pages. }
    destruct (promise_all (page_result <$> indexable_pages)).
    + exists before, []. cbn [emitted]. by rewrite app_nil_r.
    + exists before, (upload_events st uploaded_records). cbn [emitted].
      split; [done|]. split; [done|].
      unfold upload_events. cbv zeta. unfold page_work. rewrite List.filter_app.
      by destruct (stale_ids st _).
  - destruct (script_not_configured Hnot) as [e ->]. by exists [], [].
Qed.

Lemma size_dom_index_ids (st : IndexState) : length (index_ids st) = size (dom st).
Proof. unfold index_ids. by rewrite length_fmap, length_map_to_list, size_dom. Qed.

Lemma JSSet_size_of_list (l : list string) :
  JSSet.size (JSSet.of_list l) = size (list_to_set l : gset string).
Proof.
  unfold JSSet.size.
  rewrite <- (size_list_to_set (C := gset string) (JSSet.of_list l))
    by apply JSSet_foldl_NoDup, NoDup_nil_2.
  f_equal. apply set_eq. intros id.
  by rewrite !elem_of_list_to_set, JSSet_of_list_elem.
Qed.

(** X13: the numbers that a run that completes writes to the console are
    the number of uploaded records, the number of records that the index
    held before the run, and the number of records that it holds after the
    run. *)
Theorem logged_counts st :
  result (script st) = inr () →
  ConsoleLog "🔥 Generated %d new Algolia records." [ArgNum (length uploaded_records)]
    ∈ emitted (script st)
  ∧ ConsoleLog "🔥 Found %d existing Algolia records in `%s`"
      [ArgNum (size (dom st)); log_string DOCS_INDEX_NAME]
    ∈ emitted (script st)
  ∧ ConsoleLog "🔥 Saved %d records" [ArgNum (size (dom (remote (script st))))]
    ∈ emitted (script st).
Proof.
  intros Hok. destruct (script_ok st Hok) as (? & ? & ? & _ & _ & _ & ->).
  cbn [emitted remote].
  rewrite upload_remote_dom, <- JSSet_size_of_list, <- size_dom_index_ids.
  repeat split; rewrite !elem_of_cons, elem_of_app; do 4 right;
    unfold upload_events; cbv zeta; rewrite elem_of_app; left;
    rewrite !elem_of_cons; auto 10.
Qed.

(** ** Beyond the claims: running twice *)

Lemma index_save_lookup_other (records : list AlgoliaRecord) id st acc :
  (∀ r, r ∈ records → is_Some (objectID r)) →
  id ∉ omap objectID records →
  (foldl index_add (st, acc) records).1 !! id = st !! id.
Proof.
  revert st acc. induction records as [|x records IH]; intros st acc Hids Hid;
    [reflexivity|].
  cbn [foldl]. unfold index_add at 2. cbn [fst snd].
  destruct (Hids x) as [i Hi]; [by left|].
  cbn [omap list_omap] in Hid. rewrite Hi in Hid |- *.
  apply not_elem_of_cons in Hid as [Hne Hid].
  rewrite IH; [|intros r Hr; apply Hids; by right|done].
  by rewrite lookup_insert_ne.
Qed.

Lemma index_save_lookup_indep (records : list AlgoliaRecord) id st st' acc acc' :
  (∀ r, r ∈ records → is_Some (objectID r)) →
  id ∈ omap objectID records →
  (foldl index_add (st, acc) records).1 !! id
  = (foldl index_add (st', acc') records).1 !! id.
Proof.
  revert st st' acc acc'.
  induction records as [|x records IH]; intros st st' acc acc' Hids Hid;
    [by apply elem_of_nil in Hid|].
  cbn [foldl]. unfold index_add at 2 4. cbn [fst snd].
  destruct (Hids x) as [i Hi]; [by left|].
  cbn [omap list_omap] in Hid. rewrite Hi in Hid |- *.
  assert (∀ r, r ∈ records → is_Some (objectID r)) as Hids'
    by (intros r Hr; apply Hids; by right).
  destruct (decide (id ∈ omap objectID records)) as [Hin|Hout].
  - by apply IH.
  - apply elem_of_cons in Hid as [->|Hin]; [|done].
    by rewrite !index_save_lookup_other, !lookup_insert_eq.
Qed.

(** X12: when every uploaded record brings its own identifier, a second
    run right after a run that completed leaves the remote index exactly as
    the first run left it, the records included. *)
Theorem second_run_keeps_index st :
  (∀ r, r ∈ uploaded_records → is_Some (objectID r)) →
  result (script st) = inr () →
  remote (script (remote (script st))) = remote (script st).
Proof.
  intros Hids Hok.
  assert (result (script (remote (script st))) = inr ()) as Hok2
    by (by rewrite (script_result_indep _ st)).
  destruct (script_ok _ Hok2) as (? & ? & ? & _ & _ & _ & ->).
  destruct (script_ok st Hok) as (? & ? & ? & _ & _ & _ & ->).
  cbn [remote].
  assert (∀ st0, (index_save st0 uploaded_records).2 = omap objectID uploaded_records)
    as Hsaved by (intros st0; unfold index_save; by rewrite index_save_given_ids).
  set (first := upload_remote st uploaded_records).
  assert (dom first = list_to_set (omap objectID uploaded_records)) as Hdom
    by (subst first; by rewrite upload_remote_dom, Hsaved).
  assert (upload_remote first uploaded_records = (index_save first uploaded_records).1)
    as ->.
  { unfold upload_remote.
    pose proof (stale_ids_nil first (index_save first uploaded_records).2) as Hstale.
    destruct (index_save first uploaded_records) as [st' saved] eqn:Hsave.
    cbn [fst snd] in *. rewrite Hstale; [done|].
    intros id. rewrite Hdom, elem_of_list_to_set.
    specialize (Hsaved first). rewrite Hsave in Hsaved. cbn [snd] in Hsaved.
    by rewrite Hsaved. }
  apply map_eq. intros id. unfold index_save.
  destruct (decide (id ∈ omap objectID uploaded_records)) as [Hin|Hout].
  - rewrite (index_save_lookup_indep _ _ first st [] []) by done.
    subst first. symmetry. apply upload_remote_lookup_saved. by rewrite Hsaved.
  - by rewrite index_save_lookup_other.
Qed.

End Properties.

(** ** The script on the concrete site *)

(** The example of the specification: of the pages [a] and the draft [b] only
    [a] is processed, and an index that held [a-old] and [c] holds exactly
    [a-1] after the run. *)
Example spec_example :
  let run := script (H := Site.docs) Site.old_index in
  result run = inr ()
  ∧ generator_calls (emitted run) = [("a", Site.meta_a, "#main")]
  ∧ remote_calls (emitted run) =
      [BrowseObjects;
       SaveObjects (H := Site.docs) [Site.record_a] ["a-1"];
       DeleteObjects ["c"; "a-old"]]
  ∧ remote run = {[ "a-1" := Site.record_a ]}.
Proof. cbv zeta. do 3 (split; [vm_compute; reflexivity|]). vm_compute. reflexivity. Qed.

(** The run of the example completes, and so reconciles the index. *)
Lemma remote_ids_are_saved_ids_witness :
  result (script (H := Site.docs) Site.old_index) = inr ()
  ∧ ∃ saved,
      SaveObjects (uploaded_records (H := Site.docs)) saved
        ∈ emitted (script (H := Site.docs) Site.old_index)
      ∧ dom (remote (script (H := Site.docs) Site.old_index)) = list_to_set saved
      ∧ (∀ id, id ∈ saved → id ∈ dom (remote (script (H := Site.docs) Site.old_index)))
      ∧ (∀ id, id ∈ dom Site.old_index → id ∉ saved →
           (id ∉ dom (remote (script (H := Site.docs) Site.old_index)))
           ∧ ∃ stale,
               DeleteObjects stale ∈ emitted (script (H := Site.docs) Site.old_index)
               ∧ id ∈ stale).
Proof.
  split; [vm_compute; reflexivity|].
  apply (remote_ids_are_saved_ids (H := Site.docs)). vm_compute. reflexivity.
Defined.

(** C2, as stated, fails on the example: the first call to the remote index
    is the enumeration, and the upload comes second. *)
Lemma upload_is_not_first :
  let run := script (H := Site.docs) Site.old_index in
  result run = inr ()
  ∧ remote_calls (emitted run) =
      [BrowseObjects;
       SaveObjects (H := Site.docs) [Site.record_a] ["a-1"];
       DeleteObjects ["c"; "a-old"]]
  ∧ ¬ ∃ records saved rest,
        remote_calls (emitted run) = SaveObjects records saved :: BrowseObjects :: rest.
Proof.
  cbv zeta. split; [vm_compute; reflexivity|].
  assert (remote_calls (emitted (script (H := Site.docs) Site.old_index)) =
            [BrowseObjects;
             SaveObjects (H := Site.docs) [Site.record_a] ["a-1"];
             DeleteObjects ["c"; "a-old"]]) as Hcalls
    by (vm_compute; reflexivity).
  split; [exact Hcalls|].
  intros (records & saved & rest & Hclaim). rewrite Hcalls in Hclaim.
  discriminate Hclaim.
Qed.

Lemma remote_steps_in_order_witness :
  result (script (H := Site.docs) Site.old_index) = inr ()
  ∧ ∃ saved,
      saved = (index_save (H := Site.docs) Site.old_index uploaded_records).2
      ∧ remote_calls (emitted (script (H := Site.docs) Site.old_index)) =
          BrowseObjects :: SaveObjects (uploaded_records (H := Site.docs)) saved
            :: match stale_ids (H := Site.docs) Site.old_index saved with
               | [] => []
               | stale => [DeleteObjects stale]
               end
      ∧ ∀ id, id ∈ stale_ids (H := Site.docs) Site.old_index saved
              ↔ id ∈ dom Site.old_index ∧ id ∉ saved.
Proof.
  split; [vm_compute; reflexivity|].
  apply (remote_steps_in_order (H := Site.docs)). vm_compute. reflexivity.
Defined.

(** Page [c] has no HTML file: without the flag the run stops there. *)
Lemma page_failure_aborts_witness :
  (ALOGOLIA_SKIP_ON_ERROR (H := Site.docs_broken) = false
   ∧ Site.page_c ∈ site_pages (H := Site.docs_broken)
   ∧ indexable Site.page_c = true
   ∧ result (getRecords_try (H := Site.docs_broken) Site.page_c Site.old_index)
     = inl Site.no_file_c)
  ∧ (∃ e', result (script (H := Site.docs_broken) Site.old_index) = inl e')
  ∧ remote_calls (emitted (script (H := Site.docs_broken) Site.old_index)) = []
  ∧ remote (script (H := Site.docs_broken) Site.old_index) = Site.old_index.
Proof.
  assert (Site.page_c ∈ site_pages (H := Site.docs_broken)) as Hin
    by (do 2 apply list_elem_of_further; apply list_elem_of_here).
  split.
  - split; [vm_compute; reflexivity|].
    split; [exact Hin|]. split; vm_compute; reflexivity.
  - apply (page_failure_aborts (H := Site.docs_broken) Site.old_index Site.page_c
             Site.no_file_c);
      [vm_compute; reflexivity | exact Hin | vm_compute; reflexivity
      | vm_compute; reflexivity].
Defined.

(** With the flag the error of page [c] is logged and page [a] is uploaded. *)
Lemma page_failure_skipped_witness :
  (ALOGOLIA_SKIP_ON_ERROR (H := Site.docs_skip) = true
   ∧ configured (H := Site.docs_skip)
   ∧ Site.page_c ∈ site_pages (H := Site.docs_skip)
   ∧ indexable Site.page_c = true
   ∧ result (getRecords_try (H := Site.docs_skip) Site.page_c Site.old_index)
     = inl Site.no_file_c)
  ∧ result (getRecords (H := Site.docs_skip) Site.page_c Site.old_index) = inr []
  ∧ ConsoleError (page_error Site.page_c Site.no_file_c)
      ∈ emitted (getRecords (H := Site.docs_skip) Site.page_c Site.old_index)
  ∧ ConsoleError (page_error Site.page_c Site.no_file_c)
      ∈ emitted (script (H := Site.docs_skip) Site.old_index)
  ∧ result (script (H := Site.docs_skip) Site.old_index) = inr ()
  ∧ ∃ saved,
      SaveObjects (uploaded_records (H := Site.docs_skip)) saved
        ∈ emitted (script (H := Site.docs_skip) Site.old_index)
      ∧ ∀ other records r,
          other ∈ site_pages (H := Site.docs_skip) → indexable other = true →
          result (getRecords_try (H := Site.docs_skip) other Site.old_index)
          = inr records →
          r ∈ records → r ∈ uploaded_records (H := Site.docs_skip).
Proof.
  assert (Site.page_c ∈ site_pages (H := Site.docs_skip)) as Hin
    by (do 2 apply list_elem_of_further; apply list_elem_of_here).
  assert (configured (H := Site.docs_skip)) as Hconf
    by (split; [|split]; vm_compute; reflexivity).
  split.
  - split; [vm_compute; reflexivity|]. split; [exact Hconf|].
    split; [exact Hin|]. split; vm_compute; reflexivity.
  - apply (page_failure_skipped (H := Site.docs_skip) Site.old_index Site.page_c
             Site.no_file_c);
      [vm_compute; reflexivity | exact Hconf | exact Hin | vm_compute; reflexivity
      | vm_compute; reflexivity].
Defined.

(** The one call of the generator in the example is for page [a]. *)
Lemma generator_only_on_indexable_witness :
  HtmlToAlgoliaRecord "a" Site.meta_a "#main"
    ∈ emitted (generateAlogliaRecords (H := Site.docs)
                 [Site.page_a; Site.draft_b] Site.old_index)
  ∧ ∃ pageFm,
      pageFm ∈ [Site.page_a; Site.draft_b]
      ∧ truthy_flag (draft pageFm) = false
      ∧ truthy_flag (noindex pageFm) = false
      ∧ truthy_string (title pageFm) = true
      ∧ files (Host := Site.docs) !! page_htmlFile (H := Site.docs) pageFm = Some "a"
      ∧ Site.meta_a = page_meta (H := Site.docs) pageFm
      ∧ "#main" = "#main".
Proof.
  assert (emitted (generateAlogliaRecords (H := Site.docs)
                      [Site.page_a; Site.draft_b] Site.old_index)
          = [ConsoleLog "processing:" [ArgStr "a"];
             ReadFileSync "/docs/.next/server/app/a.html";
             HtmlToAlgoliaRecord "a" Site.meta_a "#main"]) as Hevents
    by (vm_compute; reflexivity).
  assert (HtmlToAlgoliaRecord "a" Site.meta_a "#main"
            ∈ emitted (generateAlogliaRecords (H := Site.docs)
                         [Site.page_a; Site.draft_b] Site.old_index)) as Hcall
    by (rewrite Hevents; do 2 apply list_elem_of_further; apply list_elem_of_here).
  split; [exact Hcall|].
  exact (generator_only_on_indexable (H := Site.docs)
           [Site.page_a; Site.draft_b] Site.old_index "a" Site.meta_a "#main" Hcall).
Defined.

Lemma generator_once_per_rendered_page_witness :
  generator_calls
    (emitted (generateAlogliaRecords (H := Site.docs_broken)
                [Site.page_a; Site.draft_b; Site.page_c] Site.old_index))
  = [("a", Site.meta_a, "#main")]
  ∧ rendered (H := Site.docs_broken) [Site.page_a; Site.draft_b; Site.page_c]
    = [Site.page_a].
Proof.
  destruct (generator_once_per_rendered_page (H := Site.docs_broken)
              [Site.page_a; Site.draft_b; Site.page_c] Site.old_index)
    as (Hcalls & _ & _).
  split; [|vm_compute; reflexivity].
  rewrite Hcalls. vm_compute. reflexivity.
Defined.

(** Without any setting the run fails on [ALGOLIA_APP_ID]. *)
Lemma missing_setting_is_fatal_witness :
  (ALGOLIA_APP_ID (H := Site.docs_unset) = None
   ∨ ALGOLIA_API_KEY (H := Site.docs_unset) = None
   ∨ DOCS_INDEX_NAME (H := Site.docs_unset) = None)
  ∧ (∃ e, result (script (H := Site.docs_unset) Site.old_index) = inl e)
  ∧ emitted (script (H := Site.docs_unset) Site.old_index) = []
  ∧ remote (script (H := Site.docs_unset) Site.old_index) = Site.old_index.
Proof.
  assert (ALGOLIA_APP_ID (H := Site.docs_unset) = None) as Hnone
    by (vm_compute; reflexivity).
  split; [left; exact Hnone|].
  apply (missing_setting_is_fatal (H := Site.docs_unset) Site.old_index).
  left. exact Hnone.
Defined.

Lemma second_run_is_idle_witness :
  ((∀ r, r ∈ uploaded_records (H := Site.docs) → is_Some (objectID r))
   ∧ result (script (H := Site.docs) Site.old_index) = inr ())
  ∧ result (script (H := Site.docs) (remote (script (H := Site.docs) Site.old_index)))
    = inr ()
  ∧ (∀ ids,
       DeleteObjects ids
         ∉ emitted (script (H := Site.docs)
                      (remote (script (H := Site.docs) Site.old_index))))
  ∧ dom (remote (script (H := Site.docs)
                   (remote (script (H := Site.docs) Site.old_index))))
    = dom (remote (script (H := Site.docs) Site.old_index)).
Proof.
  assert (∀ r, r ∈ uploaded_records (H := Site.docs) → is_Some (objectID r)) as Hids.
  { intros r Hr. apply list_elem_of_In in Hr. vm_compute in Hr.
    destruct Hr as [<-|[]]. exists "a-1". reflexivity. }
  assert (result (script (H := Site.docs) Site.old_index) = inr ()) as Hok
    by (vm_compute; reflexivity).
  split; [split; [exact Hids|exact Hok]|].
  exact (second_run_is_idle (H := Site.docs) Site.old_index Hids Hok).
Defined.

(** On an empty index nothing is stale. *)
Lemma no_delete_without_stale_witness :
  (result (script (H := Site.docs) Site.empty_index) = inr ()
   ∧ stale_ids (H := Site.docs) Site.empty_index
       (index_save (H := Site.docs) Site.empty_index uploaded_records).2 = [])
  ∧ (∀ ids, DeleteObjects ids ∉ emitted (script (H := Site.docs) Site.empty_index))
  ∧ remote_calls (emitted (script (H := Site.docs) Site.empty_index)) =
      [BrowseObjects;
       SaveObjects uploaded_records
         (index_save (H := Site.docs) Site.empty_index uploaded_records).2]
  ∧ remote (script (H := Site.docs) Site.empty_index)
    = (index_save (H := Site.docs) Site.empty_index uploaded_records).1.
Proof.
  split; [split; vm_compute; reflexivity|].
  apply (no_delete_without_stale (H := Site.docs) Site.empty_index);
    vm_compute; reflexivity.
Defined.


(** ** Beyond the claims, on the concrete site *)

(** Page [c] has no HTML file. *)
Lemma missing_file_skips_generator_witness :
  files (Host := Site.docs_broken) !! page_htmlFile (H := Site.docs_broken) Site.page_c
  = None
  ∧ let error :=
      CausedError ("🔴 Error processing " +:+ slug Site.page_c +:+ ": "
                     +:+ message (ENOENT (page_htmlFile (H := Site.docs_broken) Site.page_c)))
        (ENOENT (page_htmlFile (H := Site.docs_broken) Site.page_c)) in
    emitted (getRecords (H := Site.docs_broken) Site.page_c Site.old_index)
    = ConsoleLog "processing:" [ArgStr (slug Site.page_c)]
      :: ReadFileSync (page_htmlFile (H := Site.docs_broken) Site.page_c)
      :: (if ALOGOLIA_SKIP_ON_ERROR (H := Site.docs_broken)
          then [ConsoleError error] else [])
    ∧ result (getRecords (H := Site.docs_broken) Site.page_c Site.old_index)
      = (if ALOGOLIA_SKIP_ON_ERROR (H := Site.docs_broken) then inr [] else inl error)
    ∧ remote (getRecords (H := Site.docs_broken) Site.page_c Site.old_index)
      = Site.old_index.
Proof.
  assert (files (Host := Site.docs_broken)
            !! page_htmlFile (H := Site.docs_broken) Site.page_c = None) as Hnone
    by (vm_compute; reflexivity).
  split; [exact Hnone|].
  exact (missing_file_skips_generator (H := Site.docs_broken) Site.page_c
           Site.old_index Hnone).
Defined.

(** The site without any record empties the index. *)
Lemma empty_upload_empties_index_witness :
  (result (script (H := Site.docs_unbuilt) Site.old_index) = inr ()
   ∧ uploaded_records (H := Site.docs_unbuilt) = [])
  ∧ remote (script (H := Site.docs_unbuilt) Site.old_index) = ∅
  ∧ (index_ids (H := Site.docs_unbuilt) Site.old_index ≠ [] →
     DeleteObjects (index_ids (H := Site.docs_unbuilt) Site.old_index)
       ∈ emitted (script (H := Site.docs_unbuilt) Site.old_index)).
Proof.
  assert (result (script (H := Site.docs_unbuilt) Site.old_index) = inr ()) as Hok
    by (vm_compute; reflexivity).
  assert (uploaded_records (H := Site.docs_unbuilt) = []) as Hnone
    by (vm_compute; reflexivity).
  split; [split; [exact Hok|exact Hnone]|].
  exact (empty_upload_empties_index (H := Site.docs_unbuilt) Site.old_index Hok Hnone).
Defined.

(** The draft [b] between the pages [a] and [c]. *)
Lemma unindexable_page_has_no_effect_witness :
  indexable Site.draft_b = false
  ∧ generateAlogliaRecords (H := Site.docs_broken)
      ([Site.page_a] ++ Site.draft_b :: [Site.page_c]) Site.old_index
    = generateAlogliaRecords (H := Site.docs_broken)
        ([Site.page_a] ++ [Site.page_c]) Site.old_index.
Proof.
  assert (indexable Site.draft_b = false) as Hno by (vm_compute; reflexivity).
  split; [exact Hno|].
  exact (unindexable_page_has_no_effect (H := Site.docs_broken)
           [Site.page_a] Site.draft_b [Site.page_c] Site.old_index Hno).
Defined.

(** The record of page [a] replaces the outdated one. *)
Lemma uploaded_record_is_stored_witness :
  (result (script (H := Site.docs) Site.outdated_index) = inr ()
   ∧ Site.record_a ∈ uploaded_records (H := Site.docs)
   ∧ objectID (Host := Site.docs) Site.record_a = Some "a-1")
  ∧ ∃ r', remote (script (H := Site.docs) Site.outdated_index) !! "a-1" = Some r'
          ∧ r' ∈ uploaded_records (H := Site.docs)
          ∧ objectID (Host := Site.docs) r' = Some "a-1".
Proof.
  assert (result (script (H := Site.docs) Site.outdated_index) = inr ()) as Hok
    by (vm_compute; reflexivity).
  assert (uploaded_records (H := Site.docs) = [Site.record_a]) as Hrecords
    by (vm_compute; reflexivity).
  assert (Site.record_a ∈ uploaded_records (H := Site.docs)) as Hin
    by (rewrite Hrecords; apply list_elem_of_here).
  assert (objectID (Host := Site.docs) Site.record_a = Some "a-1") as Hid
    by (vm_compute; reflexivity).
  split; [split; [exact Hok|split; [exact Hin|exact Hid]]|].
  exact (uploaded_record_is_stored (H := Site.docs) Site.outdated_index
           Site.record_a "a-1" Hok Hin Hid).
Defined.

Lemma logged_counts_witness :
  result (script (H := Site.docs) Site.old_index) = inr ()
  ∧ ConsoleLog "🔥 Generated %d new Algolia records."
      [ArgNum (length (uploaded_records (H := Site.docs)))]
      ∈ emitted (script (H := Site.docs) Site.old_index)
  ∧ ConsoleLog "🔥 Found %d existing Algolia records in `%s`"
      [ArgNum (size (dom Site.old_index)); log_string (DOCS_INDEX_NAME (H := Site.docs))]
      ∈ emitted (script (H := Site.docs) Site.old_index)
  ∧ ConsoleLog "🔥 Saved %d records"
      [ArgNum (size (dom (remote (script (H := Site.docs) Site.old_index))))]
      ∈ emitted (script (H := Site.docs) Site.old_index).
Proof.
  assert (result (script (H := Site.docs) Site.old_index) = inr ()) as Hok
    by (vm_compute; reflexivity).
  split; [exact Hok|].
  exact (logged_counts (H := Site.docs) Site.old_index Hok).
Defined.

Lemma second_run_keeps_index_witness :
  ((∀ r, r ∈ uploaded_records (H := Site.docs) → is_Some (objectID r))
   ∧ result (script (H := Site.docs) Site.old_index) = inr ())
  ∧ remote (script (H := Site.docs) (remote (script (H := Site.docs) Site.old_index)))
    = remote (script (H := Site.docs) Site.old_index).
Proof.
  assert (uploaded_records (H := Site.docs) = [Site.record_a]) as Hrecords
    by (vm_compute; reflexivity).
  assert (∀ r, r ∈ uploaded_records (H := Site.docs) → is_Some (objectID r)) as Hids.
  { intros r Hr. rewrite Hrecords in Hr.
    apply list_elem_of_singleton in Hr. rewrite Hr. exists "a-1". reflexivity. }
  assert (result (script (H := Site.docs) Site.old_index) = inr ()) as Hok
    by (vm_compute; reflexivity).
  split; [split; [exact Hids|exact Hok]|].
  exact (second_run_keeps_index (H := Site.docs) Site.old_index Hids Hok).
Defined.

(** Without any setting the run stops on [ALGOLIA_APP_ID]. *)
Lemma first_missing_setting_reported_witness :
  ALGOLIA_APP_ID (H := Site.docs_unset) = None
  ∧ result (script (H := Site.docs_unset) Site.old_index)
    = inl (PlainError "`ALGOLIA_APP_ID` env var must be configured in repo secrets")
  ∧ emitted (script (H := Site.docs_unset) Site.old_index) = []
  ∧ remote (script (H := Site.docs_unset) Site.old_index) = Site.old_index.
Proof.
  assert (ALGOLIA_APP_ID (H := Site.docs_unset) = None) as Hnone
    by (vm_compute; reflexivity).
  split; [exact Hnone|].
  destruct (first_missing_setting_reported (H := Site.docs_unset) Site.old_index)
    as (Hfirst & _ & _).
  rewrite (Hfirst (or_introl Hnone)). split; [reflexivity|]. split; reflexivity.
Defined.
